(** * Snippetbox: the snippet repository, the error helpers and the handlers

    A shallow embedding of the Go sources of snippetbox.floccinau.net:
    - [internal/models/snippets.go] (package [models]): [Snippet],
      [SnippetModel], [NewSnippetModel], [Insert], [Get], [Latest] and the
      sentinel [ErrNoRecord];
    - the helpers of package [main]: [serverError], [clientError],
      [notFound];
    - the handlers of package [main]: [home], [snippetView],
      [snippetCreate].

    The code talks to three things outside the repository: the MySQL
    server behind [database/sql], the [net/http] response writer and the
    [log] package.  Each is modelled by a small executable semantics, kept
    in a module of its own below.  Time is a number of seconds ([Z]); the
    storage engine reads its clock ([NOW()]) once per statement, and that
    reading is the argument [now] of every operation.  The text columns
    hold any string and the time columns any number of seconds.  What
    the driver may report (a lost connection, a conversion that fails)
    is an argument too, of type [sql.Faults]. *)

From Stdlib Require Import ZArith String Ascii List Lia DecimalString DecimalPos.
From stdpp Require Import base decidable list sorting strings gmap.

Local Open Scope string_scope.
Local Open Scope Z_scope.

(** ** Go values: machine integers and errors *)

Module golang.

(** Go's [int] is 64 bits wide on the platforms the server is built
    for; a conversion to it wraps around. *)
Definition intSize : Z := 64.
Definition maxInt64 : Z := 2 ^ 63 - 1.
Definition minInt64 : Z := - 2 ^ 63.

Definition wrap (w x : Z) : Z := (x + 2 ^ (w - 1)) mod 2 ^ w - 2 ^ (w - 1).

(** [int(x)] for an [int64] [x]. *)
Definition int (x : Z) : Z := wrap intSize x.

(** The sentinel error values of the program: package-level variables
    built by [errors.New], compared by identity. *)
Inductive sentinel : Type :=
| SqlErrNoRows        (* database/sql: ErrNoRows *)
| ModelsErrNoRecord.  (* internal/models: ErrNoRecord *)

Inductive numCause : Type := ErrSyntax | ErrRange.

(** A non-nil value of the interface type [error].  The nil error is
    [None] in [option error]. *)
Inductive error : Type :=
| Sentinel (s : sentinel)
| DriverError (msg : string)                     (* reported by the SQL driver *)
| NumError (fn num : string) (cause : numCause)  (* *strconv.NumError *)
| TemplateError (msg : string).                  (* reported by html/template *)

Definition sentinel_eqb (a b : sentinel) : bool :=
  match a, b with
  | SqlErrNoRows, SqlErrNoRows => true
  | ModelsErrNoRecord, ModelsErrNoRecord => true
  | _, _ => false
  end.

(** [errors.Is(err, target)] for a sentinel [target]: identity of the
    error value, never its text.  Errors made elsewhere are never the
    sentinel, whatever their message is. *)
Definition errors_Is (err : error) (target : sentinel) : bool :=
  match err with
  | Sentinel s => sentinel_eqb s target
  | _ => false
  end.

Definition dquote : string := String (ascii_of_nat 34) EmptyString.

(** [err.Error()]. The quoting of [NumError] leaves Go's escaping of
    special characters out. *)
Definition Error (err : error) : string :=
  match err with
  | Sentinel SqlErrNoRows => "sql: no rows in result set"
  | Sentinel ModelsErrNoRecord => "models: no matching record found"
  | DriverError msg => msg
  | NumError fn num cause =>
      "strconv." ++ fn ++ ": parsing " ++ dquote ++ num ++ dquote ++ ": " ++
      match cause with
      | ErrSyntax => "invalid syntax"
      | ErrRange => "value out of range"
      end
  | TemplateError msg => msg
  end.

End golang.

(** ** database/sql over the [snippets] table *)

Module sql.
Import golang.

Definition ErrNoRows : sentinel := SqlErrNoRows.

(** A record of the table [snippets]: columns [id], [title], [content],
    [created], [expires]. *)
Record Tuple : Type := mkTuple {
  col_id : Z;
  col_title : string;
  col_content : string;
  col_created : Z;
  col_expires : Z
}.

(** A value bound to a placeholder [?]. *)
Inductive Value : Type :=
| VInt (n : Z)
| VText (s : string).

(** The conditions that occur in the [WHERE] clauses of the program. *)
Inductive Cond : Type :=
| ExpiresAfterNow  (* expires > NOW() *)
| IdEqualsParam.   (* id = ? *)

(** The statements the program prepares.
    [INSERT_snippet] is
      INSERT INTO snippets(title, content, created, expires)
      VALUES(?, ?, NOW(), DATE_ADD(NOW(), INTERVAL ? DAY))
    and [SELECT_snippets w o l] is
      SELECT id, title, content, created, expires FROM snippets
      [WHERE c1 AND c2 ...] [ORDER BY id DESC] [LIMIT n]. *)
Inductive Stmt : Type :=
| INSERT_snippet
| SELECT_snippets (where_ : list Cond) (order_by_id_desc : bool)
                  (limit : option nat).

(** The server behind the connection pool: the table, the counter of
    the [AUTO_INCREMENT] column [id], and the statements submitted so
    far (oldest first). *)
Record DB : Type := mkDB {
  snippets : list Tuple;
  auto_increment : Z;
  submitted : list (Stmt * list Value)
}.

(** What the driver reports while one repository method runs.  [None]
    everywhere is a healthy connection.  [next_err = Some (n, msg)]
    breaks a cursor after [n] records have been delivered. *)
Record Faults : Type := mkFaults {
  prepare_err : Stmt -> option string;
  exec_err : option string;
  last_insert_id_err : option string;
  query_err : option string;
  next_err : option (nat * string);
  scan_err : Tuple -> option string;
  close_err : option string
}.

Definition no_faults : Faults :=
  {| prepare_err := fun _ => None; exec_err := None;
     last_insert_id_err := None; query_err := None; next_err := None;
     scan_err := fun _ => None; close_err := None |}.

Definition seconds_per_day : Z := 86400.

(** [DATE_ADD(t, INTERVAL n DAY)]. *)
Definition DATE_ADD_DAY (t n : Z) : Z := t + n * seconds_per_day.

Definition num_input (st : Stmt) : nat :=
  match st with
  | INSERT_snippet => 3
  | SELECT_snippets w _ _ =>
      length (List.filter (fun c => match c with IdEqualsParam => true | _ => false end) w)
  end.

Definition eval_cond (now : Z) (args : list Value) (c : Cond) (t : Tuple) : bool :=
  match c with
  | ExpiresAfterNow => now <? col_expires t
  | IdEqualsParam =>
      match args with
      | [VInt i] => col_id t =? i
      | _ => false
      end
  end.

(** [a] comes before [b] under [ORDER BY id DESC]. *)
Definition id_desc (a b : Tuple) : Prop := col_id b <= col_id a.

Global Instance id_desc_dec a b : Decision (id_desc a b) := Z_le_dec _ _.

Definition run_select (now : Z) (args : list Value) (w : list Cond)
    (order_by_id_desc : bool) (limit : option nat) (tbl : list Tuple) : list Tuple :=
  let matching := List.filter (fun t => forallb (fun c => eval_cond now args c t) w) tbl in
  let ordered := if order_by_id_desc then merge_sort id_desc matching else matching in
  match limit with
  | Some n => take n ordered
  | None => ordered
  end.

Definition submit (st : Stmt) (args : list Value) (db : DB) : DB :=
  {| snippets := snippets db; auto_increment := auto_increment db;
     submitted := submitted db ++ [(st, args)] |}.

(** [db.Prepare(query)]. *)
Definition Prepare (f : Faults) (st : Stmt) : Stmt + error :=
  match prepare_err f st with
  | Some msg => inr (DriverError msg)
  | None => inl st
  end.

(** The [sql.Result] of an [Exec]. *)
Record Result : Type := mkResult {
  result_id : Z;
  result_id_err : option error
}.

Definition LastInsertId (r : Result) : Z * option error :=
  match result_id_err r with
  | Some err => (0, Some err)
  | None => (result_id r, None)
  end.

(** [stmt.Exec(args...)].  The engine assigns the next value of the
    counter as [id]; it refuses when the counter has left the range of
    the column or when the key is taken. *)
Definition Stmt_Exec (st : Stmt) (args : list Value) (now : Z) (f : Faults)
    (db : DB) : (Result + error) * DB :=
  let db1 := submit st args db in
  match exec_err f with
  | Some msg => (inr (DriverError msg), db1)
  | None =>
      match st, args with
      | INSERT_snippet, [VText title; VText content; VInt days] =>
          let id := auto_increment db in
          if (id <? 1) || (maxInt64 <? id) then
            (inr (DriverError "Failed to read auto-increment value from storage engine"), db1)
          else if existsb (fun t => col_id t =? id) (snippets db) then
            (inr (DriverError "Duplicate entry for key 'PRIMARY'"), db1)
          else
            let t := {| col_id := id; col_title := title; col_content := content;
                        col_created := now; col_expires := DATE_ADD_DAY now days |} in
            (inl {| result_id := id;
                    result_id_err := DriverError <$> last_insert_id_err f |},
             {| snippets := snippets db ++ [t]; auto_increment := id + 1;
                submitted := submitted db1 |})
      | _, _ => (inr (DriverError "sql: statement and arguments do not match"), db1)
      end
  end.

(** A result cursor, [*sql.Rows].  On the side of the driver: the
    records it will still deliver and what its [Next] reports after
    them ([None]: the end of the result set, [io.EOF]).  On the side of
    [database/sql]: the record the last [Next] made current, the error
    kept for [Err] (the field [lasterr], [None] when it is nil or
    [io.EOF]) and whether the cursor is closed. *)
Record Rows : Type := mkRows {
  pending : list Tuple;
  at_end : option error;
  current : option Tuple;
  lasterr : option error;
  closed : bool
}.

(** The cursor as a query returns it: nothing read, no error known. *)
Definition open_rows (records : list Tuple) (e : option error) : Rows :=
  {| pending := records; at_end := e; current := None; lasterr := None; closed := false |}.

(** [stmt.Query(args...)]. *)
Definition Stmt_Query (st : Stmt) (args : list Value) (now : Z) (f : Faults)
    (db : DB) : (Rows + error) * DB :=
  let db1 := submit st args db in
  match query_err f with
  | Some msg => (inr (DriverError msg), db1)
  | None =>
      match st with
      | SELECT_snippets w o l =>
          if negb (length args =? num_input st)%nat then
            (inr (DriverError "sql: wrong number of arguments"), db1)
          else
            let result := run_select now args w o l (snippets db) in
            match next_err f with
            | None => (inl (open_rows result None), db1)
            | Some (n, msg) =>
                (inl (open_rows (take n result) (Some (DriverError msg))), db1)
            end
      | INSERT_snippet => (inr (DriverError "sql: statement returns no rows"), db1)
      end
  end.

(** [rows.Close()]: nothing on a closed cursor; otherwise the driver
    closes its side, and its error is returned and kept for [Err]
    unless an error of the iteration is kept already. *)
Definition Rows_Close (f : Faults) (rs : Rows) : option error * Rows :=
  if closed rs then (None, rs)
  else
    let err := DriverError <$> close_err f in
    (err,
     {| pending := pending rs; at_end := at_end rs; current := current rs;
        lasterr := match lasterr rs with Some e => Some e | None => err end;
        closed := true |}).

(** [rows.Next()]: false on a closed cursor; true with the next record
    made current; at the end of the records the driver's report is
    kept, the cursor closes itself, and the answer is false. *)
Definition Rows_Next (f : Faults) (rs : Rows) : bool * Rows :=
  if closed rs then (false, rs)
  else
    match pending rs with
    | t :: rest =>
        (true, {| pending := rest; at_end := at_end rs; current := Some t;
                  lasterr := None; closed := false |})
    | [] =>
        (false, snd (Rows_Close f {| pending := []; at_end := at_end rs; current := None;
                                     lasterr := at_end rs; closed := false |}))
    end.

(** [rows.Err()]. *)
Definition Rows_Err (rs : Rows) : option error := lasterr rs.

(** The conversion of the columns of a record into the destinations
    [&id, &title, &content, &created, &expires], in the order of the
    [SELECT] list, or the conversion error. *)
Definition convert (f : Faults) (t : Tuple) : (Z * string * string * Z * Z) + error :=
  match scan_err f t with
  | Some msg => inr (DriverError msg)
  | None => inl (col_id t, col_title t, col_content t, col_created t, col_expires t)
  end.

(** [rows.Scan(dest...)]: the error kept from the iteration, if any;
    an error on a closed cursor or before the first [Next]; otherwise
    the conversion of the current record. *)
Definition Rows_Scan (f : Faults) (rs : Rows) : (Z * string * string * Z * Z) + error :=
  match lasterr rs with
  | Some err => inr err
  | None =>
      if closed rs then inr (DriverError "sql: Rows are closed")
      else
        match current rs with
        | None => inr (DriverError "sql: Scan called without calling Next")
        | Some t => convert f t
        end
  end.

(** The [*sql.Row] of [QueryRow]: the deferred error of the query, or
    its cursor. *)
Inductive Row : Type :=
| RowErr (err : error)
| RowRows (rs : Rows).

(** [stmt.QueryRow(args...)]. *)
Definition Stmt_QueryRow (st : Stmt) (args : list Value) (now : Z) (f : Faults)
    (db : DB) : Row * DB :=
  match Stmt_Query st args now f db with
  | (inr err, db') => (RowErr err, db')
  | (inl rs, db') => (RowRows rs, db')
  end.

(** [row.Scan(dest...)]: the deferred error of the query; when [Next]
    finds no record, the error of the cursor and else [ErrNoRows];
    otherwise the columns of the first record and then the error of
    [Close].  The rest of the records is discarded. *)
Definition Row_Scan (f : Faults) (r : Row) : (Z * string * string * Z * Z) + error :=
  match r with
  | RowErr err => inr err
  | RowRows rs =>
      match Rows_Next f rs with
      | (false, rs1) =>
          match Rows_Err rs1 with
          | Some err => inr err
          | None => inr (Sentinel ErrNoRows)
          end
      | (true, rs1) =>
          match Rows_Scan f rs1 with
          | inr err => inr err
          | inl cols =>
              match fst (Rows_Close f rs1) with
              | Some err => inr err
              | None => inl cols
              end
          end
      end
  end.

End sql.

(** ** Package [models]: internal/models/snippets.go *)

Module models.
Import golang.

(** [var ErrNoRecord = errors.New("models: no matching record found")] *)
Definition ErrNoRecord : sentinel := ModelsErrNoRecord.

Record Snippet : Type := mkSnippet {
  ID : Z;
  title : string;
  content : string;
  created : Z;
  expires : Z
}.

(** The three prepared statements.  The field [DB] of the Go struct is
    the handle of the pool; the server it stands for is the [sql.DB]
    every method takes and returns. *)
Record SnippetModel : Type := mkSnippetModel {
  InsertStmt : sql.Stmt;
  GetStmt : sql.Stmt;
  LatestStmt : sql.Stmt
}.

(** The texts handed to [db.Prepare], in the order of the source. *)
Definition insert_query : sql.Stmt := sql.INSERT_snippet.

(** SELECT id, title, content, created, expires FROM snippets
    WHERE expires > NOW() AND id = ? *)
Definition get_query : sql.Stmt :=
  sql.SELECT_snippets [sql.ExpiresAfterNow; sql.IdEqualsParam] false None.

(** SELECT id, title, content, created, expires FROM snippets
    ORDER BY id DESC LIMIT 10 *)
Definition latest_query : sql.Stmt :=
  sql.SELECT_snippets [] true (Some 10%nat).

(** The statement left commented out in the body of [Latest]:
    SELECT id, title, content, created, expires FROM snippets
    WHERE expires > NOW() ORDER BY id DESC LIMIT 10 *)
Definition latest_query_commented_out : sql.Stmt :=
  sql.SELECT_snippets [sql.ExpiresAfterNow] true (Some 10%nat).

Definition NewSnippetModel (f : sql.Faults) : option SnippetModel * option error :=
  match sql.Prepare f insert_query with
  | inr err => (None, Some err)
  | inl insertStmt =>
      match sql.Prepare f get_query with
      | inr err => (None, Some err)
      | inl getStmt =>
          match sql.Prepare f latest_query with
          | inr err => (None, Some err)
          | inl latestStmt =>
              (Some {| InsertStmt := insertStmt; GetStmt := getStmt;
                       LatestStmt := latestStmt |}, None)
          end
      end
  end.

(** The model a successful start-up holds for the life of the process. *)
Definition the_model : SnippetModel :=
  {| InsertStmt := insert_query; GetStmt := get_query; LatestStmt := latest_query |}.

Definition Insert (m : SnippetModel) (title content : string) (expires : Z)
    (now : Z) (f : sql.Faults) (db : sql.DB) : (Z * option error) * sql.DB :=
  let '(res, db') :=
    sql.Stmt_Exec (InsertStmt m) [sql.VText title; sql.VText content; sql.VInt expires]
                  now f db in
  match res with
  | inr err => ((0, Some err), db')
  | inl result =>
      match sql.LastInsertId result with
      | (_, Some err) => ((0, Some err), db')
      | (id, None) => ((int id, None), db')
      end
  end.

(** The columns in the order of [Scan]'s destinations:
    [&s.ID, &s.title, &s.content, &s.created, &s.expires]. *)
Definition scanned (cols : Z * string * string * Z * Z) : Snippet :=
  let '(c1, c2, c3, c4, c5) := cols in
  {| ID := c1; title := c2; content := c3; created := c4; expires := c5 |}.

Definition Get (m : SnippetModel) (id : Z) (now : Z) (f : sql.Faults) (db : sql.DB)
    : (option Snippet * option error) * sql.DB :=
  let '(row, db') := sql.Stmt_QueryRow (GetStmt m) [sql.VInt id] now f db in
  match sql.Row_Scan f row with
  | inr err =>
      if errors_Is err sql.ErrNoRows
      then ((None, Some (Sentinel ErrNoRecord)), db')
      else ((None, Some err), db')
  | inl cols => ((Some (scanned cols), None), db')
  end.

(** The loop [for rows.Next() { ... }], for at most [bound] turns: the
    cursor it leaves, with the slice built or the error of a [Scan].
    A cursor with n records pending lets [Next] hold n times, so the
    bound [Latest] gives, n + 1, is never reached. *)
Fixpoint Latest_loop (f : sql.Faults) (bound : nat) (rows : sql.Rows)
    (snippets : list Snippet) : sql.Rows * (list Snippet + error) :=
  match bound with
  | O => (rows, inr (DriverError "sql: more records than were pending"))
  | S bound' =>
      match sql.Rows_Next f rows with
      | (false, rows') => (rows', inl snippets)
      | (true, rows') =>
          match sql.Rows_Scan f rows' with
          | inr err => (rows', inr err)
          | inl cols => Latest_loop f bound' rows' (snippets ++ [scanned cols])
          end
      end
  end.

(** [Latest] with the cursor as the deferred [rows.Close()] leaves it
    ([None] when the query gave none).  A nil slice is [None];
    [Some []] is the empty slice [[]*Snippet{}]. *)
Definition Latest_cursor (m : SnippetModel) (now : Z) (f : sql.Faults) (db : sql.DB)
    : option sql.Rows * (option (list Snippet) * option error) * sql.DB :=
  let '(res, db') := sql.Stmt_Query (LatestStmt m) [] now f db in
  match res with
  | inr err => (None, (None, Some err), db')
  | inl rows =>
      match Latest_loop f (S (length (sql.pending rows))) rows [] with
      | (rows', inr err) => (Some (snd (sql.Rows_Close f rows')), (None, Some err), db')
      | (rows', inl snippets) =>
          match sql.Rows_Err rows' with
          | Some err => (Some (snd (sql.Rows_Close f rows')), (None, Some err), db')
          | None => (Some (snd (sql.Rows_Close f rows')), (Some snippets, None), db')
          end
      end
  end.

Definition Latest (m : SnippetModel) (now : Z) (f : sql.Faults) (db : sql.DB)
    : (option (list Snippet) * option error) * sql.DB :=
  let '(_, res, db') := Latest_cursor m now f db in (res, db').

End models.

(** ** strconv: decimal integers *)

Module strconv.
Import golang.

Definition digit (c : ascii) : option Z :=
  let n := Z.of_nat (nat_of_ascii c) in
  if (48 <=? n) && (n <=? 57) then Some (n - 48) else None.

Definition is_sign (c : ascii) : bool :=
  (nat_of_ascii c =? 43)%nat || (nat_of_ascii c =? 45)%nat.
Definition is_minus (c : ascii) : bool := (nat_of_ascii c =? 45)%nat.

Definition maxUint64 : Z := 2 ^ 64 - 1.

(** The loop of [ParseUint(s, 10, 64)] over the bytes of [s], with the
    number read so far: a byte that is no digit is a syntax error; a
    number that leaves [uint64] is a range error, reported as soon as
    it is met. *)
Fixpoint ParseUint_loop (s : string) (n : Z) : Z + numCause :=
  match s with
  | EmptyString => inl n
  | String c rest =>
      match digit c with
      | None => inr ErrSyntax
      | Some d =>
          if maxUint64 / 10 + 1 <=? n then inr ErrRange
          else
            let n1 := n * 10 + d in
            if maxUint64 <? n1 then inr ErrRange else ParseUint_loop rest n1
      end
  end.

Definition ParseUint (s : string) : Z * option numCause :=
  match s with
  | EmptyString => (0, Some ErrSyntax)
  | _ =>
      match ParseUint_loop s 0 with
      | inl n => (n, None)
      | inr ErrSyntax => (0, Some ErrSyntax)
      | inr ErrRange => (maxUint64, Some ErrRange)
      end
  end.

(** [ParseInt(s, 10, 0)]: an optional sign, then [ParseUint]; a value
    outside [int] is clamped and reported as a range error. *)
Definition ParseInt (s : string) : Z * option numCause :=
  match s with
  | EmptyString => (0, Some ErrSyntax)
  | String c rest =>
      let neg := is_minus c in
      let body := if is_sign c then rest else s in
      match ParseUint body with
      | (_, Some ErrSyntax) => (0, Some ErrSyntax)
      | (un, _) =>
          let cutoff := 2 ^ (intSize - 1) in
          if negb neg && (cutoff <=? un) then (cutoff - 1, Some ErrRange)
          else if neg && (cutoff <? un) then (- cutoff, Some ErrRange)
          else (if neg then - un else un, None)
      end
  end.

(** [strconv.Atoi(s)]: [ParseInt(s, 10, 0)] converted to [int], the
    error renamed.  The fast path of the library for short strings
    computes the same. *)
Definition Atoi (s : string) : Z * option error :=
  let '(i64, cause) := ParseInt s in
  (int i64, NumError "Atoi" s <$> cause).

(** [fmt.Sprintf("%d", n)] and [strconv.Itoa(n)]. *)
Definition Itoa (n : Z) : string :=
  match n with
  | Z0 => "0"
  | _ => NilZero.string_of_int (Z.to_int n)
  end.

(** What a decimal numeral denotes, digit by digit from the left,
    independently of the parser. *)
Inductive Digits : string -> Z -> Prop :=
| Digits_one c d :
    digit c = Some d -> Digits (String c EmptyString) d
| Digits_cons c d s v :
    digit c = Some d -> Digits s v ->
    Digits (String c s) (d * 10 ^ Z.of_nat (String.length s) + v).

Inductive Numeral : string -> Z -> Prop :=
| Numeral_unsigned s v : Digits s v -> Numeral s v
| Numeral_plus s v : Digits s v -> Numeral (String "+" s) v
| Numeral_minus s v : Digits s v -> Numeral (String "-" s) (- v).

End strconv.

(** ** log: the loggers of [main] *)

Module log.

Definition Ldate : Z := 1.
Definition Ltime : Z := 2.
Definition Lmicroseconds : Z := 4.
Definition Llongfile : Z := 8.
Definition Lshortfile : Z := 16.

(** A frame of the call stack of the goroutine: the source position
    where the function [frame_func] is currently executing. *)
Record Frame : Type := mkFrame {
  frame_file : string;
  frame_line : Z;
  frame_func : string
}.

Record Logger : Type := mkLogger {
  prefix : string;
  flag : Z
}.

(** [log.New(out, prefix, flag)]; the destination is the stream the
    entries are appended to. *)
Definition New (prefix : string) (flag : Z) : Logger :=
  {| prefix := prefix; flag := flag |}.

(** One line written by a logger: prefix, time stamp and source
    position as the flags ask for them, then the text. *)
Record Entry : Type := mkEntry {
  entry_prefix : string;
  entry_time : option Z;
  entry_pos : option (string * Z);
  entry_text : string
}.

(** [runtime.Caller(skip)] seen from a function whose own frame is the
    head of [stack]. *)
Definition Caller (stack : list Frame) (skip : nat) : string * Z :=
  match nth_error stack skip with
  | Some fr => (frame_file fr, frame_line fr)
  | None => ("???", 0)
  end.

(** [l.Output(calldepth, s)], called where the head of [stack] is. *)
Definition Output (l : Logger) (stack : list Frame) (clock : Z)
    (calldepth : nat) (s : string) : Entry :=
  let inside := {| frame_file := "log.go"; frame_line := 0; frame_func := "Output" |} :: stack in
  {| entry_prefix := prefix l;
     entry_time :=
       if Z.eqb (Z.land (flag l) (Z.lor Ldate (Z.lor Ltime Lmicroseconds))) 0
       then None else Some clock;
     entry_pos :=
       if Z.eqb (Z.land (flag l) (Z.lor Lshortfile Llongfile)) 0
       then None else Some (Caller inside calldepth);
     entry_text := s |}.

End log.

(** ** net/http: requests and the response writer *)

Module http.

Definition nl : string := String (ascii_of_nat 10) EmptyString.

Definition StatusOK : Z := 200.
Definition StatusNoContent : Z := 204.
Definition StatusSeeOther : Z := 303.
Definition StatusNotModified : Z := 304.
Definition StatusNotFound : Z := 404.
Definition StatusMethodNotAllowed : Z := 405.
Definition StatusInternalServerError : Z := 500.

Definition MethodGet : string := "GET".
Definition MethodHead : string := "HEAD".
Definition MethodPost : string := "POST".

Definition StatusText (code : Z) : string :=
  match code with
  | 100 => "Continue" | 101 => "Switching Protocols" | 102 => "Processing"
  | 103 => "Early Hints"
  | 200 => "OK" | 201 => "Created" | 202 => "Accepted"
  | 203 => "Non-Authoritative Information" | 204 => "No Content"
  | 205 => "Reset Content" | 206 => "Partial Content" | 207 => "Multi-Status"
  | 208 => "Already Reported" | 226 => "IM Used"
  | 300 => "Multiple Choices" | 301 => "Moved Permanently" | 302 => "Found"
  | 303 => "See Other" | 304 => "Not Modified" | 305 => "Use Proxy"
  | 307 => "Temporary Redirect" | 308 => "Permanent Redirect"
  | 400 => "Bad Request" | 401 => "Unauthorized" | 402 => "Payment Required"
  | 403 => "Forbidden" | 404 => "Not Found" | 405 => "Method Not Allowed"
  | 406 => "Not Acceptable" | 407 => "Proxy Authentication Required"
  | 408 => "Request Timeout" | 409 => "Conflict" | 410 => "Gone"
  | 411 => "Length Required" | 412 => "Precondition Failed"
  | 413 => "Request Entity Too Large" | 414 => "Request URI Too Long"
  | 415 => "Unsupported Media Type" | 416 => "Requested Range Not Satisfiable"
  | 417 => "Expectation Failed" | 418 => "I'm a teapot"
  | 421 => "Misdirected Request" | 422 => "Unprocessable Entity"
  | 423 => "Locked" | 424 => "Failed Dependency" | 425 => "Too Early"
  | 426 => "Upgrade Required" | 428 => "Precondition Required"
  | 429 => "Too Many Requests" | 431 => "Request Header Fields Too Large"
  | 451 => "Unavailable For Legal Reasons"
  | 500 => "Internal Server Error" | 501 => "Not Implemented"
  | 502 => "Bad Gateway" | 503 => "Service Unavailable"
  | 504 => "Gateway Timeout" | 505 => "HTTP Version Not Supported"
  | 506 => "Variant Also Negotiates" | 507 => "Insufficient Storage"
  | 508 => "Loop Detected" | 510 => "Not Extended"
  | 511 => "Network Authentication Required"
  | _ => ""
  end.

(** The request as the handlers read it: the method, [r.URL.Path] and
    the pairs of [r.URL.Query()] in the order of the query string. *)
Record Request : Type := mkRequest {
  Method : string;
  URL_Path : string;
  URL_Query : list (string * string)
}.

(** [values.Get(key)]: the first value of the key, or the empty string. *)
Fixpoint Values_Get (q : list (string * string)) (key : string) : string :=
  match q with
  | [] => ""
  | (k, v) :: rest => if String.eqb k key then v else Values_Get rest key
  end.

(** What the client will receive: the header map, the status line once
    it is written, the body written so far, the interim (1xx) responses
    sent before the status, and the panic a [WriteHeader] raised.
    Header names are given in canonical form. *)
Record ResponseWriter : Type := mkResponseWriter {
  Header : gmap string (list string);
  status : option Z;
  body : string;
  interim : list Z;
  panicked : option string
}.

Definition fresh : ResponseWriter :=
  {| Header := ∅; status := None; body := ""; interim := []; panicked := None |}.

Definition Header_Set (k v : string) (w : ResponseWriter) : ResponseWriter :=
  {| Header := <[k := [v]]> (Header w); status := status w; body := body w;
     interim := interim w; panicked := panicked w |}.

Definition Header_Del (k : string) (w : ResponseWriter) : ResponseWriter :=
  {| Header := delete k (Header w); status := status w; body := body w;
     interim := interim w; panicked := panicked w |}.

(** [checkWriteHeaderCode]: a code outside 100..999 makes
    [WriteHeader] panic. *)
Definition invalid_code (code : Z) : bool := (code <? 100) || (999 <? code).

(** A 1xx code other than 101 is sent as an interim response. *)
Definition informational (code : Z) : bool :=
  (100 <=? code) && (code <=? 199) && negb (code =? 101).

(** [w.WriteHeader(code)] raises a panic: the status is not written yet
    and the code is invalid. *)
Definition WriteHeader_panics (code : Z) (w : ResponseWriter) : bool :=
  match status w with
  | Some _ => false
  | None => invalid_code code
  end.

(** [w.WriteHeader(code)]: superfluous once the status is written;
    a panic for an invalid code; an interim response for a 1xx code,
    the status staying open; otherwise the call fixes the status. *)
Definition WriteHeader (code : Z) (w : ResponseWriter) : ResponseWriter :=
  match status w with
  | Some _ => w
  | None =>
      if invalid_code code then
        {| Header := Header w; status := None; body := body w; interim := interim w;
           panicked := Some ("invalid WriteHeader code " ++ strconv.Itoa code) |}
      else if informational code then
        {| Header := Header w; status := None; body := body w;
           interim := interim w ++ [code]; panicked := panicked w |}
      else
        {| Header := Header w; status := Some code; body := body w;
           interim := interim w; panicked := panicked w |}
  end.

(** [bodyAllowedForStatus]: a response with a 1xx status, with 204 or
    with 304 has no body. *)
Definition bodyAllowedForStatus (status : Z) : bool :=
  negb ((100 <=? status) && (status <=? 199)) &&
  negb (status =? StatusNoContent) && negb (status =? StatusNotModified).

(** [w.Write(data)]: an implicit [WriteHeader(200)] first; the data is
    refused ([ErrBodyNotAllowed]) under a status that allows no body. *)
Definition Write (data : string) (w : ResponseWriter) : ResponseWriter :=
  let w1 := WriteHeader StatusOK w in
  let allowed := match status w1 with
                 | Some code => bodyAllowedForStatus code
                 | None => true
                 end in
  if allowed then
    {| Header := Header w1; status := status w1; body := body w1 ++ data;
       interim := interim w1; panicked := panicked w1 |}
  else w1.

Definition Fprintln (s : string) (w : ResponseWriter) : ResponseWriter :=
  Write (s ++ nl) w.

(** [http.Error(w, error, code)].  When [WriteHeader] panics the call
    unwinds and the text is not written. *)
Definition Error (w : ResponseWriter) (error : string) (code : Z) : ResponseWriter :=
  let w := Header_Del "Content-Length" w in
  let w := Header_Set "Content-Type" "text/plain; charset=utf-8" w in
  let w := Header_Set "X-Content-Type-Options" "nosniff" w in
  if WriteHeader_panics code w then WriteHeader code w
  else Fprintln error (WriteHeader code w).

(** [http.Redirect(w, r, url, code)] for a [url] that is an absolute,
    clean path with a query, which cleaning and escaping leave as it
    is. *)
Definition Redirect (w : ResponseWriter) (r : Request) (url : string) (code : Z)
    : ResponseWriter :=
  let hadCT := bool_decide (is_Some (Header w !! "Content-Type")) in
  let w := Header_Set "Location" url w in
  let w :=
    if negb hadCT && (String.eqb (Method r) MethodGet || String.eqb (Method r) MethodHead)
    then Header_Set "Content-Type" "text/html; charset=utf-8" w else w in
  if WriteHeader_panics code w then WriteHeader code w
  else
    let w := WriteHeader code w in
    if negb hadCT && String.eqb (Method r) MethodGet
    then Fprintln ("<a href=" ++ golang.dquote ++ url ++ golang.dquote ++ ">"
                   ++ StatusText code ++ "</a>." ++ nl) w
    else w.

End http.

(** ** Package [main]: the application, its helpers and its handlers *)

Module web.
Import golang.

(** The dependencies of the handlers.  The field [snippets] is the one
    the handlers use as [app.snippets]. *)
Record application : Type := mkApplication {
  errorLog : log.Logger;
  infoLog : log.Logger;
  snippets : models.SnippetModel
}.

Definition tab : string := String (ascii_of_nat 9) EmptyString.

(** The loggers and the application as [main] builds them. *)
Definition main_infoLog : log.Logger :=
  log.New ("INFO" ++ tab) (Z.lor log.Ldate log.Ltime).
Definition main_errorLog : log.Logger :=
  log.New ("ERROR" ++ tab) (Z.lor (Z.lor log.Ldate log.Ltime) log.Lshortfile).
Definition main_app : application :=
  {| errorLog := main_errorLog; infoLog := main_infoLog;
     snippets := models.the_model |}.

(** What a request can change on the server: the database and the
    stream the error logger writes to. *)
Record World : Type := mkWorld {
  db : sql.DB;
  stderr : list log.Entry
}.

Definition set_db (d : sql.DB) (σ : World) : World :=
  {| db := d; stderr := stderr σ |}.

(** html/template on the three files of the home page: the error of
    parsing them, what executing "base" writes, and its error. *)
Record Templates : Type := mkTemplates {
  parse_err : option string;
  rendered : string;
  execute_err : option string
}.

(** The surroundings of one request: the clock of the storage engine,
    the behaviour of the driver, the clock of the server, the
    templates on disk. *)
Record Env : Type := mkEnv {
  db_now : Z;
  faults : sql.Faults;
  clock : Z;
  templates : Templates
}.

(** The source positions of the helpers and of the handlers. *)
Definition in_helpers (line : Z) (fn : string) : log.Frame :=
  {| log.frame_file := "helpers.go"; log.frame_line := line; log.frame_func := fn |}.
Definition in_handlers (line : Z) (fn : string) : log.Frame :=
  {| log.frame_file := "handlers.go"; log.frame_line := line; log.frame_func := fn |}.

Section Handlers.

(** The runtime's rendering of a call stack ([debug.Stack()]) and of
    a [time.Time] under [%+v]. *)
Variable debug_Stack : list log.Frame -> string.
Variable time_String : Z -> string.

(** [stack] is the call stack at the call of the helper, the
    caller's frame first. *)
Definition serverError (app : application) (stack : list log.Frame) (clock : Z)
    (w : http.ResponseWriter) (err : error) (σ : World)
    : http.ResponseWriter * World :=
  let trace :=
    Error err ++ http.nl ++ debug_Stack (in_helpers 13 "serverError" :: stack) in
  let entry :=
    log.Output (errorLog app) (in_helpers 16 "serverError" :: stack) clock 2 trace in
  (http.Error w (http.StatusText http.StatusInternalServerError)
              http.StatusInternalServerError,
   {| db := db σ; stderr := stderr σ ++ [entry] |}).

Definition clientError (app : application) (w : http.ResponseWriter) (status : Z)
    : http.ResponseWriter :=
  http.Error w (http.StatusText status) status.

Definition notFound (app : application) (w : http.ResponseWriter)
    : http.ResponseWriter :=
  clientError app w http.StatusNotFound.

Definition home (app : application) (env : Env) (stack : list log.Frame)
    (w : http.ResponseWriter) (r : http.Request) (σ : World)
    : http.ResponseWriter * World :=
  if negb (String.eqb (http.URL_Path r) "/") then (notFound app w, σ)
  else
    match parse_err (templates env) with
    | Some msg =>
        serverError app (in_handlers 43 "home" :: stack) (clock env) w
                    (TemplateError msg) σ
    | None =>
        let w1 :=
          if String.eqb (rendered (templates env)) "" then w
          else http.Write (rendered (templates env)) w in
        match execute_err (templates env) with
        | Some msg =>
            serverError app (in_handlers 51 "home" :: stack) (clock env) w1
                        (TemplateError msg) σ
        | None => (w1, σ)
        end
    end.

(** [fmt.Sprintf("%+v", snippet)] for a [*Snippet]. *)
Definition Sprintf_plus_v (snippet : option models.Snippet) : string :=
  match snippet with
  | None => "<nil>"
  | Some s =>
      "&{ID:" ++ strconv.Itoa (models.ID s) ++ " title:" ++ models.title s ++
      " content:" ++ models.content s ++
      " created:" ++ time_String (models.created s) ++
      " expires:" ++ time_String (models.expires s) ++ "}"
  end.

Definition snippetView (app : application) (env : Env) (stack : list log.Frame)
    (w : http.ResponseWriter) (r : http.Request) (σ : World)
    : http.ResponseWriter * World :=
  let '(id, err) := strconv.Atoi (http.Values_Get (http.URL_Query r) "id") in
  if bool_decide (is_Some err) || (id <? 1) then (notFound app w, σ)
  else
    let '((snippet, err), db') :=
      models.Get (snippets app) id (db_now env) (faults env) (db σ) in
    let σ := set_db db' σ in
    match err with
    | Some err =>
        if errors_Is err models.ErrNoRecord then (notFound app w, σ)
        else serverError app (in_handlers 71 "snippetView" :: stack) (clock env) w err σ
    | None => (http.Write (Sprintf_plus_v snippet) w, σ)
    end.

Definition snippetCreate (app : application) (env : Env) (stack : list log.Frame)
    (w : http.ResponseWriter) (r : http.Request) (σ : World)
    : http.ResponseWriter * World :=
  if negb (String.eqb (http.Method r) http.MethodPost) then
    let w := http.Header_Set "Allow" http.MethodPost w in
    (clientError app w http.StatusMethodNotAllowed, σ)
  else
    let title := "O snail" in
    let content :=
      "O snail" ++ http.nl ++ "Climb Mount Fuji," ++ http.nl ++
      "But slowly, slowly!" ++ http.nl ++ http.nl ++ "- Kobayashi Issa" in
    let expires := 7 in
    let '((id, err), db') :=
      models.Insert (snippets app) title content expires (db_now env) (faults env) (db σ) in
    let σ := set_db db' σ in
    match err with
    | Some err =>
        serverError app (in_handlers 101 "snippetCreate" :: stack) (clock env) w err σ
    | None =>
        (http.Redirect w r ("/snippet/view?id=" ++ strconv.Itoa id) http.StatusSeeOther, σ)
    end.

End Handlers.

End web.

(** * Vocabulary of the properties *)

Module spec.
Import golang.
Import models.

(** The snippet a record of the table is scanned into. *)
Definition snippet_of (t : sql.Tuple) : Snippet :=
  {| ID := sql.col_id t; title := sql.col_title t; content := sql.col_content t;
     created := sql.col_created t; expires := sql.col_expires t |}.

(** The record is stored under the identifier [id]. *)
Definition stored (db : sql.DB) (id : Z) (t : sql.Tuple) : Prop :=
  In t (sql.snippets db) /\ sql.col_id t = id.

(** No record has the identifier. *)
Definition absent (db : sql.DB) (id : Z) : Prop :=
  forall t, ~ stored db id t.

(** The identifier is in the table, and what is stored under it has
    its expiry at or before [now]. *)
Definition expired (db : sql.DB) (now id : Z) : Prop :=
  (exists t, stored db id t) /\
  forall t, stored db id t -> sql.col_expires t <= now.

(** The constraint of the schema on the column [id]. *)
Definition primary_key (db : sql.DB) : Prop :=
  NoDup (List.map sql.col_id (sql.snippets db)).

(** The driver reports nothing while a method runs. *)
Definition healthy (f : sql.Faults) : Prop :=
  sql.exec_err f = None /\ sql.last_insert_id_err f = None /\
  sql.query_err f = None /\ sql.next_err f = None /\
  (forall t, sql.scan_err f t = None) /\ sql.close_err f = None.

(** The result set of the statement behind [Get]. *)
Definition get_rows (now id : Z) (db : sql.DB) : list sql.Tuple :=
  List.filter (fun t => (now <? sql.col_expires t) && (sql.col_id t =? id))
              (sql.snippets db).

(** The result set of the statement behind [Latest]. *)
Definition latest_rows (db : sql.DB) : list sql.Tuple :=
  take 10 (merge_sort sql.id_desc (sql.snippets db)).

(** Strictly descending identifiers. *)
Definition id_gt (a b : Snippet) : Prop := ID b < ID a.

(** Strictly descending keys. *)
Definition key_gt (a b : sql.Tuple) : Prop := sql.col_id b < sql.col_id a.

(** The records a call of [Latest_cursor] left unread: those still
    pending in the cursor the call leaves behind. *)
Definition unread {A B} (x : option sql.Rows * A * B) : list sql.Tuple :=
  match fst (fst x) with
  | Some rows => sql.pending rows
  | None => []
  end.

(** ** Sample data *)

(** The table before the first insert. *)
Definition empty_db : sql.DB :=
  {| sql.snippets := []; sql.auto_increment := 1; sql.submitted := [] |}.

Definition insert_at (title0 content0 : string) (days now : Z) (d : sql.DB) : sql.DB :=
  snd (Insert the_model title0 content0 days now sql.no_faults d).

(** One insert of a one-day snippet at time 0. *)
Definition one_day_db : sql.DB := insert_at "old" "gone" 1 0 empty_db.

(** Three inserts: snippet 2 lives one day, from time 100 on. *)
Definition three_db : sql.DB :=
  insert_at "c" "cc" 30 200 (insert_at "b" "bb" 1 100 (insert_at "a" "aa" 7 0 empty_db)).

(** A connection that breaks after the cursor has delivered two
    records, and one that refuses to execute. *)
Definition broken_cursor : sql.Faults :=
  {| sql.prepare_err := fun _ => None; sql.exec_err := None;
     sql.last_insert_id_err := None; sql.query_err := None;
     sql.next_err := Some (2%nat, "invalid connection");
     sql.scan_err := fun _ => None; sql.close_err := None |}.

Definition exec_refused : sql.Faults :=
  {| sql.prepare_err := fun _ => None; sql.exec_err := Some "connection refused";
     sql.last_insert_id_err := None; sql.query_err := None; sql.next_err := None;
     sql.scan_err := fun _ => None; sql.close_err := None |}.

Definition quiet_env (now : Z) : web.Env :=
  {| web.db_now := now; web.faults := sql.no_faults; web.clock := now;
     web.templates := web.mkTemplates None "<html></html>" None |}.

Definition three_world : web.World := {| web.db := three_db; web.stderr := [] |}.

(** Stand-ins for the renderings of the runtime. *)
Definition frame_txt (fr : log.Frame) : string :=
  log.frame_func fr ++ " " ++ log.frame_file fr ++ ":" ++ strconv.Itoa (log.frame_line fr).
Definition stack_txt (st : list log.Frame) : string :=
  String.concat http.nl (List.map frame_txt st).
Definition time_txt (t : Z) : string := strconv.Itoa t.

(** The records a cursor delivers out of a result set. *)
Definition cursor_records (f : sql.Faults) (result : list sql.Tuple) : list sql.Tuple :=
  match sql.next_err f with
  | None => result
  | Some (n, _) => take n result
  end.

(** The error that breaks the iteration of a cursor, if any. *)
Definition iteration_error (f : sql.Faults) : option error :=
  match sql.next_err f with
  | Some (_, msg) => Some (DriverError msg)
  | None => None
  end.

(** The cursor a query hands over for a result set. *)
Definition query_cursor (f : sql.Faults) (result : list sql.Tuple) : sql.Rows :=
  sql.open_rows (cursor_records f result) (iteration_error f).

(** What [rows.Err()] reports once the cursor has been read to its
    end: the error that broke the iteration, or else the error of the
    [Close] at the end of the records. *)
Definition end_error (f : sql.Faults) : option error :=
  match sql.next_err f with
  | Some (_, msg) => Some (DriverError msg)
  | None => DriverError <$> sql.close_err f
  end.

(** What [Get] returns for the records its cursor delivers. *)
Definition Get_outcome (f : sql.Faults) (records : list sql.Tuple)
    : option Snippet * option error :=
  match records with
  | [] =>
      match end_error f with
      | Some e => (None, Some e)
      | None => (None, Some (Sentinel ErrNoRecord))
      end
  | t :: _ =>
      match sql.scan_err f t with
      | Some msg => (None, Some (DriverError msg))
      | None =>
          match sql.close_err f with
          | Some msg => (None, Some (DriverError msg))
          | None => (Some (snippet_of t), None)
          end
      end
  end.

(** The cursor of [Latest] after its last [Next]: read to the end and
    closed, with the error [Err] will report. *)
Definition ended (f : sql.Faults) (rows : sql.Rows) : sql.Rows :=
  {| sql.pending := []; sql.at_end := sql.at_end rows; sql.current := None;
     sql.lasterr := match sql.at_end rows with
                    | Some e => Some e
                    | None => DriverError <$> sql.close_err f
                    end;
     sql.closed := true |}.

(** The cursor of [Latest] stopped at a record that does not scan. *)
Definition stopped (f : sql.Faults) (rows : sql.Rows) (t : sql.Tuple)
    (post : list sql.Tuple) : sql.Rows :=
  {| sql.pending := post; sql.at_end := sql.at_end rows; sql.current := Some t;
     sql.lasterr := DriverError <$> sql.close_err f; sql.closed := true |}.

(** A connection whose cursors fail to close. *)
Definition close_fails : sql.Faults :=
  {| sql.prepare_err := fun _ => None; sql.exec_err := None;
     sql.last_insert_id_err := None; sql.query_err := None; sql.next_err := None;
     sql.scan_err := fun _ => None; sql.close_err := Some "commands out of sync" |}.

End spec.

(** * More vocabulary and sample data *)

Module spec_more.
Import golang.

(** The engine accepts the next key: the counter is in the range of
    the column and no record has that key. *)
Definition accepts (db : sql.DB) : Prop :=
  1 <= sql.auto_increment db <= maxInt64 /\
  forall t, In t (sql.snippets db) -> sql.col_id t <> sql.auto_increment db.

(** The record an [Insert] adds. *)
Definition inserted (db : sql.DB) (title0 content0 : string) (days now : Z) : sql.Tuple :=
  {| sql.col_id := sql.auto_increment db; sql.col_title := title0;
     sql.col_content := content0; sql.col_created := now;
     sql.col_expires := now + days * sql.seconds_per_day |}.

(** The database after the engine has stored that record. *)
Definition after_insert (db : sql.DB) (title0 content0 : string) (days now : Z) : sql.DB :=
  {| sql.snippets := sql.snippets db ++ [inserted db title0 content0 days now];
     sql.auto_increment := sql.auto_increment db + 1;
     sql.submitted := sql.submitted db ++
       [(sql.INSERT_snippet, [sql.VText title0; sql.VText content0; sql.VInt days])] |}.

(** The records the cursor of [Latest] delivers. *)
Definition delivered (f : sql.Faults) (db : sql.DB) : list sql.Tuple :=
  match sql.next_err f with
  | None => spec.latest_rows db
  | Some (n, _) => take n (spec.latest_rows db)
  end.

(** Connections that fail at one point each. *)
Definition refused_query : sql.Faults :=
  {| sql.prepare_err := fun _ => None; sql.exec_err := None;
     sql.last_insert_id_err := None; sql.query_err := Some "connection refused";
     sql.next_err := None; sql.scan_err := fun _ => None; sql.close_err := None |}.

Definition lost_id : sql.Faults :=
  {| sql.prepare_err := fun _ => None; sql.exec_err := None;
     sql.last_insert_id_err := Some "LastInsertId is not supported";
     sql.query_err := None; sql.next_err := None;
     sql.scan_err := fun _ => None; sql.close_err := None |}.

(** The record with key 2 cannot be converted by [Scan]. *)
Definition bad_scan : sql.Faults :=
  {| sql.prepare_err := fun _ => None; sql.exec_err := None;
     sql.last_insert_id_err := None; sql.query_err := None; sql.next_err := None;
     sql.scan_err := fun t => if sql.col_id t =? 2 then Some "unsupported Scan" else None;
     sql.close_err := None |}.

(** The server rejects every statement with an [ORDER BY]. *)
Definition no_order_by : sql.Faults :=
  {| sql.prepare_err := fun st =>
       match st with
       | sql.SELECT_snippets _ true _ => Some "syntax error"
       | _ => None
       end;
     sql.exec_err := None; sql.last_insert_id_err := None; sql.query_err := None;
     sql.next_err := None; sql.scan_err := fun _ => None; sql.close_err := None |}.

Definition env_with (now : Z) (f : sql.Faults) : web.Env :=
  {| web.db_now := now; web.faults := f; web.clock := now;
     web.templates := web.mkTemplates None "<html></html>" None |}.

Definition env_templates (t : web.Templates) : web.Env :=
  {| web.db_now := 0; web.faults := sql.no_faults; web.clock := 0; web.templates := t |}.

Definition view_request (v : string) : http.Request :=
  http.mkRequest "GET" "/snippet/view" [("id", v)].

Definition create_request (method : string) : http.Request :=
  http.mkRequest method "/snippet/create" [].

Definition empty_world : web.World := {| web.db := spec.empty_db; web.stderr := [] |}.

(** The text [snippetCreate] inserts. *)
Definition snail_title : string := "O snail".
Definition snail_content : string :=
  "O snail" ++ http.nl ++ "Climb Mount Fuji," ++ http.nl ++
  "But slowly, slowly!" ++ http.nl ++ http.nl ++ "- Kobayashi Issa".

End spec_more.

(** * Machine integers *)

Module golang_spec.
Import golang.

(** The conversion to [int] leaves the values of an [int64] alone. *)
Lemma int_id x : minInt64 <= x <= maxInt64 -> int x = x.
Proof.
  unfold int, wrap, intSize, minInt64, maxInt64. intros H.
  rewrite Z.mod_small; lia.
Qed.

End golang_spec.

(** * The repository *)

Module models_spec.
Import golang.
Import models.
Import spec.

Lemma healthy_no_faults : healthy sql.no_faults.
Proof. repeat split. Qed.

Lemma NewSnippetModel_ok f m :
  NewSnippetModel f = (Some m, None) -> m = the_model.
Proof.
  unfold NewSnippetModel, sql.Prepare.
  repeat (destruct (sql.prepare_err f _); [discriminate|]).
  now intros [= <-].
Qed.

Lemma NewSnippetModel_healthy f :
  (forall st, sql.prepare_err f st = None) -> NewSnippetModel f = (Some the_model, None).
Proof.
  intros H. unfold NewSnippetModel, sql.Prepare. now rewrite !H.
Qed.

Lemma get_select now id db :
  sql.run_select now [sql.VInt id] [sql.ExpiresAfterNow; sql.IdEqualsParam] false None
                 (sql.snippets db) = get_rows now id db.
Proof.
  unfold sql.run_select, get_rows. apply List.filter_ext. intros t. simpl.
  now rewrite andb_true_r.
Qed.

Lemma filter_all {A} (l : list A) : List.filter (fun _ => true) l = l.
Proof. induction l as [|x l IH]; simpl; [reflexivity | now rewrite IH]. Qed.

Lemma latest_select now db :
  sql.run_select now [] [] true (Some 10%nat) (sql.snippets db) = latest_rows db.
Proof.
  unfold sql.run_select, latest_rows. cbn [forallb].
  now rewrite filter_all.
Qed.

Lemma get_rows_In now id db t :
  In t (get_rows now id db) <-> stored db id t /\ now < sql.col_expires t.
Proof.
  unfold get_rows, stored. rewrite filter_In, andb_true_iff, Z.ltb_lt, Z.eqb_eq. tauto.
Qed.

Lemma get_rows_nil now id db :
  get_rows now id db = [] <-> forall t, stored db id t -> sql.col_expires t <= now.
Proof.
  split.
  - intros E t Ht. destruct (Z_le_gt_dec (sql.col_expires t) now) as [|G]; [assumption|].
    assert (In t (get_rows now id db)) as HI by (apply get_rows_In; split; [assumption|lia]).
    rewrite E in HI. destruct HI.
  - intros H. destruct (get_rows now id db) as [|t l] eqn:E; [reflexivity|].
    assert (In t (get_rows now id db)) as HI by (rewrite E; now left).
    apply get_rows_In in HI. destruct HI as [Hs Hl]. apply H in Hs. lia.
Qed.

(** ** The cursor *)

Lemma Rows_Next_open f rs :
  sql.closed rs = false ->
  sql.Rows_Next f rs =
    match sql.pending rs with
    | t :: rest => (true, sql.mkRows rest (sql.at_end rs) (Some t) None false)
    | [] => (false, ended f rs)
    end.
Proof.
  intros H. unfold sql.Rows_Next. rewrite H. now destruct (sql.pending rs).
Qed.

Lemma Rows_Close_closed f rs : sql.closed rs = true -> sql.Rows_Close f rs = (None, rs).
Proof. intros H. unfold sql.Rows_Close. now rewrite H. Qed.

Lemma end_error_eq f :
  end_error f = match iteration_error f with
                | Some e => Some e
                | None => DriverError <$> sql.close_err f
                end.
Proof. unfold end_error, iteration_error. now destruct (sql.next_err f) as [[n msg]|]. Qed.

Lemma Rows_Err_ended f result :
  sql.Rows_Err (ended f (query_cursor f result)) = end_error f.
Proof. now rewrite end_error_eq. Qed.

(** What a query hands over: an open cursor that has read nothing and
    knows of no error. *)
Lemma Stmt_Query_rows st args now f db rows d :
  sql.Stmt_Query st args now f db = (inl rows, d) ->
  sql.query_err f = None /\ sql.submit st args db = d /\
  exists result, rows = query_cursor f result.
Proof.
  unfold sql.Stmt_Query. destruct (sql.query_err f); [discriminate|].
  destruct st as [|w o l]; [discriminate|]. destruct (negb _); [discriminate|].
  unfold query_cursor, cursor_records, iteration_error.
  destruct (sql.next_err f) as [[n msg]|]; intros [= <- <-]; repeat split; eauto.
Qed.

(** [row.Scan] on the cursor of a query. *)
Lemma Row_Scan_query f result :
  sql.Row_Scan f (sql.RowRows (query_cursor f result)) =
    match cursor_records f result with
    | [] =>
        match end_error f with
        | Some err => inr err
        | None => inr (Sentinel sql.ErrNoRows)
        end
    | t :: _ =>
        match sql.scan_err f t with
        | Some msg => inr (DriverError msg)
        | None =>
            match sql.close_err f with
            | Some msg => inr (DriverError msg)
            | None => inl (sql.col_id t, sql.col_title t, sql.col_content t,
                           sql.col_created t, sql.col_expires t)
            end
        end
    end.
Proof.
  rewrite end_error_eq. unfold sql.Row_Scan. rewrite Rows_Next_open by reflexivity.
  unfold query_cursor, sql.open_rows. cbn [sql.pending].
  destruct (cursor_records f result) as [|t r]; [reflexivity|].
  unfold sql.Rows_Scan, sql.convert, sql.Rows_Close. cbn [sql.lasterr sql.closed sql.current].
  destruct (sql.scan_err f t); [reflexivity|].
  now destruct (sql.close_err f).
Qed.

(** Every error at the end of the cursor is an error of the driver. *)
Lemma end_error_driver f e : end_error f = Some e -> exists msg, e = DriverError msg.
Proof.
  unfold end_error. destruct (sql.next_err f) as [[n msg]|].
  - intros [= <-]. eauto.
  - destruct (sql.close_err f); cbn [fmap option_fmap option_map]; [|discriminate].
    intros [= <-]. eauto.
Qed.

(** The query of [Get] and what comes back from its cursor. *)
Lemma Get_query id now f db :
  sql.query_err f = None ->
  sql.Stmt_Query get_query [sql.VInt id] now f db =
    (inl (query_cursor f (get_rows now id db)), sql.submit get_query [sql.VInt id] db).
Proof.
  intros Hq. unfold sql.Stmt_Query. rewrite Hq. unfold get_query at 1.
  change (sql.num_input _) with 1%nat. cbn [length Nat.eqb negb].
  rewrite get_select. unfold query_cursor, cursor_records, iteration_error.
  now destruct (sql.next_err f) as [[n msg]|].
Qed.

Lemma Get_unfold id now f db :
  sql.query_err f = None ->
  Get the_model id now f db =
    (Get_outcome f (cursor_records f (get_rows now id db)),
     sql.submit get_query [sql.VInt id] db).
Proof.
  intros Hq. unfold Get, sql.Stmt_QueryRow, the_model, GetStmt.
  rewrite (Get_query _ _ _ _ Hq), Row_Scan_query. unfold Get_outcome.
  destruct (cursor_records f (get_rows now id db)) as [|t r].
  - destruct (end_error f) as [e|] eqn:E; [apply end_error_driver in E as [msg ->]|]; reflexivity.
  - destruct (sql.scan_err f t); [reflexivity|]. now destruct (sql.close_err f).
Qed.

Lemma cursor_records_In f result t :
  In t (cursor_records f result) -> In t result.
Proof.
  unfold cursor_records. destruct (sql.next_err f) as [[n msg]|]; [|trivial].
  intros H. apply list_elem_of_In in H. apply list_elem_of_In.
  now apply (subseteq_take n result).
Qed.

Lemma take_head {A} n (l : list A) x r : take n l = x :: r -> exists r', l = x :: r'.
Proof. destruct n, l; simpl; intros [=]; subst; eauto. Qed.

Lemma Get_query_fault id now f db msg :
  sql.query_err f = Some msg ->
  fst (Get the_model id now f db) = (None, Some (DriverError msg)).
Proof.
  intros Hq. unfold Get, sql.Stmt_QueryRow, sql.Stmt_Query. now rewrite Hq.
Qed.

(** A successful [Get] hands out the scan of a live record stored
    under the identifier. *)
Lemma Get_success id now f db s :
  fst (Get the_model id now f db) = (Some s, None) ->
  exists t, s = snippet_of t /\ stored db id t /\ now < sql.col_expires t.
Proof.
  destruct (sql.query_err f) as [msg|] eqn:Hq.
  - rewrite (Get_query_fault _ _ _ _ _ Hq). discriminate.
  - rewrite (Get_unfold _ _ _ _ Hq). cbn [fst]. unfold Get_outcome.
    destruct (cursor_records f (get_rows now id db)) as [|t r] eqn:E.
    + destruct (end_error f); discriminate.
    + assert (In t (get_rows now id db)) as HI.
      { apply (cursor_records_In f). rewrite E. now left. }
      apply get_rows_In in HI.
      destruct (sql.scan_err f t); [discriminate|].
      destruct (sql.close_err f); [discriminate|].
      intros [= <-]. exists t. now split.
Qed.

(** C10: whenever [Get(id)] succeeds, the field [ID] of the snippet it
    returns is the requested identifier: the statement of [Get] only
    matches records whose key is [id]. *)
Theorem Get_returns_requested_id id now f db s :
  fst (Get the_model id now f db) = (Some s, None) -> ID s = id.
Proof.
  intros H. apply Get_success in H as (t & -> & [_ Hid] & _). exact Hid.
Qed.

(** [ErrNoRecord] leaves [Get] only when the driver reported nothing
    and no live record is stored under the identifier. *)
Lemma Get_ErrNoRecord_only_if id now f db s e :
  fst (Get the_model id now f db) = (s, Some e) ->
  errors_Is e ErrNoRecord = true ->
  sql.query_err f = None /\ sql.next_err f = None /\ sql.close_err f = None /\
  forall t, stored db id t -> sql.col_expires t <= now.
Proof.
  destruct (sql.query_err f) as [msg|] eqn:Hq.
  - rewrite (Get_query_fault _ _ _ _ _ Hq). intros [= <- <-]. discriminate.
  - rewrite (Get_unfold _ _ _ _ Hq). cbn [fst]. unfold Get_outcome, cursor_records, end_error.
    destruct (sql.next_err f) as [[n msg]|].
    + destruct (take n (get_rows now id db)) as [|t r].
      * intros [= <- <-]. discriminate.
      * destruct (sql.scan_err f t); [intros [= <- <-]; discriminate|].
        destruct (sql.close_err f); [intros [= <- <-]; discriminate|discriminate].
    + destruct (get_rows now id db) as [|t r] eqn:E.
      * destruct (sql.close_err f); cbn [fmap option_fmap option_map].
        -- intros [= <- <-]. discriminate.
        -- intros _ _. repeat split. now apply get_rows_nil.
      * destruct (sql.scan_err f t); [intros [= <- <-]; discriminate|].
        destruct (sql.close_err f); [intros [= <- <-]; discriminate|discriminate].
Qed.

Lemma not_live id now db :
  absent db id \/ expired db now id ->
  get_rows now id db = [].
Proof.
  intros H. apply get_rows_nil. intros t Ht. destruct H as [H|[_ H]].
  - destruct (H t Ht).
  - now apply H.
Qed.

Lemma end_error_None f :
  end_error f = None <-> sql.next_err f = None /\ sql.close_err f = None.
Proof.
  unfold end_error. destruct (sql.next_err f) as [[n msg]|].
  - split; [discriminate | intros [? _]; discriminate].
  - destruct (sql.close_err f); cbn [fmap option_fmap option_map].
    + split; [discriminate | intros [_ ?]; discriminate].
    + now split.
Qed.

Lemma end_error_faulty f :
  sql.next_err f <> None \/ sql.close_err f <> None -> exists msg, end_error f = Some (DriverError msg).
Proof.
  intros H. destruct (end_error f) as [e|] eqn:E.
  - destruct (end_error_driver _ _ E) as [msg ->]. eauto.
  - apply end_error_None in E as [? ?]. destruct H; contradiction.
Qed.

(** With the driver reporting nothing, an identifier without a live
    record yields [ErrNoRecord]. *)
Lemma Get_not_live id now f db :
  sql.query_err f = None -> sql.next_err f = None -> sql.close_err f = None ->
  absent db id \/ expired db now id ->
  fst (Get the_model id now f db) = (None, Some (Sentinel ErrNoRecord)).
Proof.
  intros Hq Hn Hc Hid. apply not_live in Hid.
  rewrite (Get_unfold _ _ _ _ Hq). unfold cursor_records. rewrite Hn, Hid.
  cbn [fst Get_outcome]. now rewrite (proj2 (end_error_None f) (conj Hn Hc)).
Qed.

(** When the storage fails on a call for an identifier without a live
    record, the error of the driver comes back. *)
Lemma Get_not_live_fault id now g db :
  absent db id \/ expired db now id ->
  sql.query_err g <> None \/ sql.next_err g <> None \/ sql.close_err g <> None ->
  exists msg, fst (Get the_model id now g db) = (None, Some (DriverError msg)).
Proof.
  intros Hid Hg. apply not_live in Hid.
  destruct (sql.query_err g) as [msg|] eqn:Hgq.
  - exists msg. now apply Get_query_fault.
  - destruct (end_error_faulty g) as [msg E]; [destruct Hg as [?|?]; [congruence|assumption]|].
    exists msg. rewrite (Get_unfold _ _ _ _ Hgq). cbn [fst].
    assert (cursor_records g (get_rows now id db) = []) as ->.
    { unfold cursor_records. rewrite Hid. destruct (sql.next_err g) as [[n m]|]; [apply take_nil|reflexivity]. }
    cbn [Get_outcome]. now rewrite E.
Qed.

(** C3: for an identifier that is not in the table, or whose snippet
    has expired at the time of the call, [Get] fails with
    [ErrNoRecord] (the driver reporting no failure of its own: none of
    the query, none of the iteration, none of closing the cursor); and
    whenever the storage fails on such a call instead, at any of these
    three points, the error that comes back is the driver's and is not
    [ErrNoRecord] under [errors.Is], which compares the kind of the
    error and never its text: not even a driver error carrying the
    very message of [ErrNoRecord] passes for it. *)
Theorem Get_not_found id now f db :
  sql.query_err f = None -> sql.next_err f = None -> sql.close_err f = None ->
  absent db id \/ expired db now id ->
  fst (Get the_model id now f db) = (None, Some (Sentinel ErrNoRecord)) /\
  errors_Is (Sentinel ErrNoRecord) ErrNoRecord = true /\
  (forall g, sql.query_err g <> None \/ sql.next_err g <> None \/ sql.close_err g <> None ->
     exists msg, fst (Get the_model id now g db) = (None, Some (DriverError msg)) /\
                 errors_Is (DriverError msg) ErrNoRecord = false) /\
  errors_Is (DriverError (Error (Sentinel ErrNoRecord))) ErrNoRecord = false.
Proof.
  intros Hq Hn Hc Hid.
  split; [|split; [reflexivity|split; [|reflexivity]]].
  - now apply Get_not_live.
  - intros g Hg. destruct (Get_not_live_fault id now g db Hid Hg) as [msg E].
    exists msg. split; [exact E | reflexivity].
Qed.

Lemma existsb_id_false id (tbl : list sql.Tuple) :
  existsb (fun t => sql.col_id t =? id) tbl = false ->
  forall t, In t tbl -> sql.col_id t <> id.
Proof.
  intros H t Ht E. assert (existsb (fun t => sql.col_id t =? id) tbl = true) as K.
  { apply existsb_exists. exists t. split; [assumption | now apply Z.eqb_eq]. }
  congruence.
Qed.

(** What a successful [Insert] did to the database. *)
Lemma Insert_success title content days now f db id db' :
  Insert the_model title content days now f db = ((id, None), db') ->
  id = sql.auto_increment db /\ 1 <= id <= maxInt64 /\
  (forall t, In t (sql.snippets db) -> sql.col_id t <> id) /\
  sql.snippets db' =
    (sql.snippets db ++ [sql.mkTuple id title content now (sql.DATE_ADD_DAY now days)])%list /\
  sql.auto_increment db' = id + 1.
Proof.
  unfold Insert, sql.Stmt_Exec, the_model, InsertStmt, insert_query.
  destruct (sql.exec_err f); [discriminate|].
  destruct ((sql.auto_increment db <? 1) || (maxInt64 <? sql.auto_increment db)) eqn:Hr;
    [discriminate|].
  destruct (existsb _ (sql.snippets db)) eqn:Hd; [discriminate|].
  unfold sql.LastInsertId. cbn [sql.result_id_err sql.result_id].
  destruct (sql.last_insert_id_err f); cbn [fmap option_fmap option_map]; [discriminate|].
  apply orb_false_iff in Hr as [H1 H2]. apply Z.ltb_ge in H1, H2.
  assert (int (sql.auto_increment db) = sql.auto_increment db) as Hint
    by (apply golang_spec.int_id; unfold minInt64, maxInt64 in *; lia).
  rewrite Hint. intros [= <- <-]. cbn [sql.snippets sql.auto_increment].
  repeat split; try lia. now apply existsb_id_false.
Qed.

Lemma get_rows_after_insert now' db db' t :
  sql.snippets db' = (sql.snippets db ++ [t])%list ->
  (forall t', In t' (sql.snippets db) -> sql.col_id t' <> sql.col_id t) ->
  now' < sql.col_expires t ->
  get_rows now' (sql.col_id t) db' = [t].
Proof.
  intros Hrows Hfresh Hlive. unfold get_rows. rewrite Hrows, List.filter_app.
  cbn [List.filter sql.col_id sql.col_expires].
  rewrite (proj2 (Z.ltb_lt _ _) Hlive), Z.eqb_refl. cbn [andb].
  replace (List.filter _ (sql.snippets db)) with (@nil sql.Tuple); [reflexivity|].
  symmetry. revert Hfresh. generalize (sql.snippets db) as l.
  induction l as [|a l IH]; intros Hfresh; [reflexivity|]. cbn [List.filter].
  rewrite (proj2 (Z.eqb_neq _ _) (Hfresh a (or_introl eq_refl))), andb_false_r.
  apply IH. intros t' Ht'. apply Hfresh. now right.
Qed.

(** C2: after an [Insert] of a title and a content with a positive
    number of days has returned an identifier without error, a [Get]
    of that identifier on the database the insert left, issued before
    the expiry the insert computed (the time of the insert itself
    included) and with the driver reporting no failure, succeeds and
    returns the inserted title and content. *)
Theorem Insert_Get_roundtrip title0 content0 days now f db id db' now' g :
  0 < days ->
  Insert the_model title0 content0 days now f db = ((id, None), db') ->
  now' < now + days * sql.seconds_per_day ->
  healthy g ->
  exists s, fst (Get the_model id now' g db') = (Some s, None) /\
            title s = title0 /\ content s = content0.
Proof.
  intros Hdays Hins Hnow (_ & _ & Hq & Hn & Hs & Hc).
  apply Insert_success in Hins as (_ & _ & Hfresh & Hrows & _).
  set (t := sql.mkTuple id title0 content0 now (sql.DATE_ADD_DAY now days)) in *.
  assert (get_rows now' id db' = [t]) as Hget.
  { apply (get_rows_after_insert now' db db' t Hrows); [exact Hfresh|exact Hnow]. }
  exists (snippet_of t). split; [|split; reflexivity].
  rewrite (Get_unfold _ _ _ _ Hq). unfold cursor_records. rewrite Hn, Hget. cbn [fst Get_outcome].
  now rewrite Hs, Hc.
Qed.

(** ** The loop of [Latest] *)

Lemma scanned_ok f t :
  sql.scan_err f t = None -> sql.convert f t = inl (sql.col_id t, sql.col_title t,
    sql.col_content t, sql.col_created t, sql.col_expires t).
Proof. intros H. unfold sql.convert. now rewrite H. Qed.

(** When every pending record scans, the loop reads the cursor to its
    end and maps every record, in order. *)
Lemma Latest_loop_run f p : forall bound rows acc,
  sql.closed rows = false -> sql.pending rows = p -> (length p < bound)%nat ->
  (forall t, In t p -> sql.scan_err f t = None) ->
  Latest_loop f bound rows acc = (ended f rows, inl (acc ++ List.map snippet_of p)%list).
Proof.
  induction p as [|t p IH]; intros bound rows acc Hc Hp Hb Hall;
    (destruct bound as [|bound]; [cbn in Hb; lia|]);
    cbn [Latest_loop]; rewrite (Rows_Next_open _ _ Hc), Hp.
  - now rewrite app_nil_r.
  - unfold sql.Rows_Scan. cbn [sql.lasterr sql.closed sql.current].
    rewrite (scanned_ok f t) by (apply Hall; now left).
    rewrite (IH bound (sql.mkRows p (sql.at_end rows) (Some t) None false) _ eq_refl eq_refl).
    + cbn [List.map]. now rewrite <- app_assoc.
    + cbn [length] in Hb. lia.
    + intros t' Ht'. apply Hall. now right.
Qed.

(** At the first record that does not scan the loop stops, the rest
    of the records unread. *)
Lemma Latest_loop_halt f pre : forall bound rows acc t post msg,
  sql.closed rows = false -> sql.pending rows = (pre ++ t :: post)%list ->
  (length (pre ++ t :: post) < bound)%nat ->
  (forall t', In t' pre -> sql.scan_err f t' = None) ->
  sql.scan_err f t = Some msg ->
  Latest_loop f bound rows acc =
    (sql.mkRows post (sql.at_end rows) (Some t) None false, inr (DriverError msg)).
Proof.
  induction pre as [|t0 pre IH]; intros bound rows acc t post msg Hc Hp Hb Hall Hs;
    (destruct bound as [|bound]; [cbn in Hb; lia|]);
    cbn [Latest_loop]; rewrite (Rows_Next_open _ _ Hc), Hp; cbn [app];
    unfold sql.Rows_Scan; cbn [sql.lasterr sql.closed sql.current].
  - unfold sql.convert. now rewrite Hs.
  - rewrite (scanned_ok f t0) by (apply Hall; now left).
    rewrite (IH bound (sql.mkRows (pre ++ t :: post) (sql.at_end rows) (Some t0) None false)
               _ t post msg eq_refl eq_refl); [reflexivity| | |exact Hs].
    + cbn [length app] in Hb. lia.
    + intros t' Ht'. apply Hall. now right.
Qed.

(** Either every record scans, or there is a first one that does not. *)
Lemma first_failure f (l : list sql.Tuple) :
  (forall t, In t l -> sql.scan_err f t = None) \/
  exists pre t post msg, l = (pre ++ t :: post)%list /\
    (forall t', In t' pre -> sql.scan_err f t' = None) /\ sql.scan_err f t = Some msg.
Proof.
  induction l as [|a l IH].
  - left. intros t [].
  - destruct (sql.scan_err f a) as [msg|] eqn:Ha.
    + right. exists [], a, l, msg. repeat split; [intros t' []|exact Ha].
    + destruct IH as [IH|(pre & t & post & msg & -> & Hpre & Ht)].
      * left. intros t [<-|Ht]; auto.
      * right. exists (a :: pre), t, post, msg. repeat split; [|exact Ht].
        intros t' [<-|Ht']; auto.
Qed.

(** The two ways the loop of [Latest] ends on the cursor of a query. *)
Lemma Latest_loop_cases f result acc :
  let rows := query_cursor f result in
  let r := Latest_loop f (S (length (sql.pending rows))) rows acc in
  ((forall t, In t (cursor_records f result) -> sql.scan_err f t = None) /\
   r = (ended f rows, inl (acc ++ List.map snippet_of (cursor_records f result))%list)) \/
  (exists pre t post msg,
     cursor_records f result = (pre ++ t :: post)%list /\
     (forall t', In t' pre -> sql.scan_err f t' = None) /\ sql.scan_err f t = Some msg /\
     r = (sql.mkRows post (iteration_error f) (Some t) None false, inr (DriverError msg))).
Proof.
  cbv zeta. change (sql.pending (query_cursor f result)) with (cursor_records f result).
  destruct (first_failure f (cursor_records f result)) as [Hall|(pre & t & post & msg & E & Hpre & Ht)].
  - left. split; [exact Hall|]. apply Latest_loop_run; auto.
  - right. exists pre, t, post, msg. repeat split; auto.
    rewrite E. apply (Latest_loop_halt f pre); auto.
Qed.

Lemma Latest_of_cursor m now f db :
  Latest m now f db =
    (snd (fst (Latest_cursor m now f db)), snd (Latest_cursor m now f db)).
Proof. unfold Latest. now destruct (Latest_cursor m now f db) as [[u r] d]. Qed.

Lemma Latest_query_fault m now f db msg :
  sql.query_err f = Some msg ->
  Latest_cursor m now f db =
    (None, (None, Some (DriverError msg)), sql.submit (LatestStmt m) [] db).
Proof. intros Hq. unfold Latest_cursor, sql.Stmt_Query. now rewrite Hq. Qed.

(** The query of [Latest]. *)
Lemma Latest_query now f db :
  sql.query_err f = None ->
  sql.Stmt_Query latest_query [] now f db =
    (inl (query_cursor f (latest_rows db)), sql.submit latest_query [] db).
Proof.
  intros Hq. unfold sql.Stmt_Query. rewrite Hq. unfold latest_query at 1.
  change (sql.num_input _) with 0%nat. cbn [length Nat.eqb negb].
  rewrite latest_select. unfold query_cursor, cursor_records, iteration_error.
  now destruct (sql.next_err f) as [[n msg]|].
Qed.

(** [Latest] on a cursor all of whose records scan: the cursor is read
    to its end, and the error it then reports decides the call. *)
Lemma Latest_cursor_run now f db :
  sql.query_err f = None ->
  (forall t, In t (cursor_records f (latest_rows db)) -> sql.scan_err f t = None) ->
  Latest_cursor the_model now f db =
    (Some (ended f (query_cursor f (latest_rows db))),
     match end_error f with
     | Some e => (None, Some e)
     | None => (Some (List.map snippet_of (cursor_records f (latest_rows db))), None)
     end,
     sql.submit latest_query [] db).
Proof.
  intros Hq Hall. unfold Latest_cursor, the_model, LatestStmt.
  rewrite (Latest_query _ _ _ Hq).
  rewrite (Latest_loop_run f (cursor_records f (latest_rows db))) by (auto; reflexivity).
  rewrite Rows_Err_ended, Rows_Close_closed by reflexivity. cbn [snd app].
  now destruct (end_error f).
Qed.

(** [Latest] on a cursor with a first record that does not scan: the
    call returns the error of that [Scan] and leaves the rest unread. *)
Lemma Latest_cursor_halt now f db pre t post msg :
  sql.query_err f = None ->
  cursor_records f (latest_rows db) = (pre ++ t :: post)%list ->
  (forall t', In t' pre -> sql.scan_err f t' = None) ->
  sql.scan_err f t = Some msg ->
  Latest_cursor the_model now f db =
    (Some (stopped f (query_cursor f (latest_rows db)) t post),
     (None, Some (DriverError msg)), sql.submit latest_query [] db).
Proof.
  intros Hq E Hpre Ht. unfold Latest_cursor, the_model, LatestStmt.
  rewrite (Latest_query _ _ _ Hq).
  rewrite (Latest_loop_halt f pre _ _ _ t post msg); auto.
  change (sql.pending (query_cursor f (latest_rows db))) with (cursor_records f (latest_rows db)).
  rewrite E. lia.
Qed.

(** What a successful [Latest] returns. *)
Lemma Latest_success now f db l :
  fst (Latest the_model now f db) = (Some l, None) ->
  sql.query_err f = None /\ sql.next_err f = None /\
  unread (Latest_cursor the_model now f db) = [] /\
  l = List.map snippet_of (latest_rows db) /\
  forall t, In t (latest_rows db) -> sql.scan_err f t = None.
Proof.
  rewrite Latest_of_cursor. cbn [fst].
  destruct (sql.query_err f) as [msg|] eqn:Hq.
  - rewrite (Latest_query_fault _ _ _ _ _ Hq). discriminate.
  - destruct (first_failure f (cursor_records f (latest_rows db)))
      as [Hall|(pre & t & post & msg & E & Hpre & Ht)].
    + rewrite (Latest_cursor_run _ _ _ Hq Hall). cbn [fst snd unread ended sql.pending].
      destruct (end_error f) eqn:Ee; [discriminate|].
      apply end_error_None in Ee as [Hn Hc]. revert Hall. unfold cursor_records. rewrite Hn.
      intros Hall [= <-]. auto.
    + rewrite (Latest_cursor_halt _ _ _ _ _ _ _ Hq E Hpre Ht). discriminate.
Qed.

Lemma Latest_healthy now f db :
  sql.query_err f = None -> sql.next_err f = None -> sql.close_err f = None ->
  (forall t, sql.scan_err f t = None) ->
  fst (Latest the_model now f db) = (Some (List.map snippet_of (latest_rows db)), None).
Proof.
  intros Hq Hn Hc Hs. rewrite Latest_of_cursor, (Latest_cursor_run _ _ _ Hq) by auto.
  cbn [fst snd]. rewrite (proj2 (end_error_None f) (conj Hn Hc)).
  unfold cursor_records. now rewrite Hn.
Qed.

(** ** The listing *)

Lemma latest_rows_length db : (length (latest_rows db) <= 10)%nat.
Proof. unfold latest_rows. rewrite length_take. lia. Qed.

(** The first half of C1 holds: never more than ten snippets. *)
Lemma Latest_at_most_10 now f db l :
  fst (Latest the_model now f db) = (Some l, None) -> (length l <= 10)%nat.
Proof.
  intros H. apply Latest_success in H as (_ & _ & _ & -> & _).
  rewrite length_map. apply latest_rows_length.
Qed.

(** C1, at the failing input: a snippet inserted at time 0 for one day
    expires at 86400.  At time 90000 [Get] no longer finds it, but
    [Latest] still lists it: the statement prepared for [Latest] has no
    condition on the expiry.  The statement left commented out in
    [Latest], prepared in its place, lists nothing. *)
Theorem Latest_lists_expired :
  fst (Latest the_model 90000 sql.no_faults one_day_db)
    = (Some [mkSnippet 1 "old" "gone" 0 86400], None) /\
  fst (Get the_model 1 90000 sql.no_faults one_day_db)
    = (None, Some (Sentinel ErrNoRecord)) /\
  fst (Latest (mkSnippetModel insert_query get_query latest_query_commented_out)
              90000 sql.no_faults one_day_db) = (Some [], None).
Proof. repeat split; vm_compute; reflexivity. Qed.

(** ** Order of the listing *)

Global Instance id_desc_trans : Transitive sql.id_desc.
Proof. unfold sql.id_desc. intros a b c. lia. Qed.

Global Instance id_desc_total : Total sql.id_desc.
Proof. unfold sql.id_desc. intros a b. lia. Qed.

Lemma sorted_strict (l : list sql.Tuple) :
  StronglySorted sql.id_desc l -> NoDup (List.map sql.col_id l) ->
  StronglySorted key_gt l.
Proof.
  induction 1 as [|a l Hl IH Ha]; cbn [List.map]; intros Hnd; [constructor|].
  apply NoDup_cons in Hnd as [Hnotin Hnd].
  constructor; [now apply IH|].
  apply Forall_forall. intros b Hb.
  assert (sql.id_desc a b) as Hab by (rewrite Forall_forall in Ha; now apply Ha).
  unfold key_gt, sql.id_desc in *.
  assert (sql.col_id b <> sql.col_id a); [|lia].
  intros E. apply Hnotin. rewrite <- E.
  apply list_elem_of_In, in_map, list_elem_of_In, Hb.
Qed.

Lemma sorted_take {A} (R : relation A) n (l : list A) :
  StronglySorted R l -> StronglySorted R (take n l).
Proof.
  intros H. rewrite <- (take_drop n l) in H. now apply StronglySorted_app_1_l in H.
Qed.

Lemma latest_rows_sorted db :
  primary_key db -> StronglySorted key_gt (latest_rows db).
Proof.
  intros Hpk. unfold latest_rows. apply sorted_take, sorted_strict.
  - apply StronglySorted_merge_sort; apply _.
  - unfold primary_key in Hpk.
    eapply NoDup_Permutation_proper; [|exact Hpk].
    apply Permutation_map, merge_sort_Permutation.
Qed.

(** C5: in every state of the storage that respects the primary key
    of the table, the list a successful [Latest] returns is in
    strictly descending order of identifier: each snippet has a
    greater [ID] than every snippet after it. *)
Theorem Latest_descending now f db l :
  primary_key db ->
  fst (Latest the_model now f db) = (Some l, None) ->
  StronglySorted id_gt l.
Proof.
  intros Hpk H. apply Latest_success in H as (_ & _ & _ & -> & _).
  apply (StronglySorted_fmap snippet_of key_gt id_gt).
  - intros a b Hab. exact Hab.
  - now apply latest_rows_sorted.
Qed.

(** The primary key holds of the empty table and survives [Insert]. *)
Lemma primary_key_empty : primary_key empty_db.
Proof. constructor. Qed.

Lemma Stmt_Exec_rows st args now f db res db' :
  sql.Stmt_Exec st args now f db = (res, db') ->
  sql.snippets db' = sql.snippets db \/
  exists t, sql.snippets db' = (sql.snippets db ++ [t])%list /\
            forall t', In t' (sql.snippets db) -> sql.col_id t' <> sql.col_id t.
Proof.
  unfold sql.Stmt_Exec.
  destruct (sql.exec_err f); [intros [= _ <-]; now left|].
  destruct st; [|intros [= _ <-]; now left].
  destruct args as [|[|title0] [|[|content0] [|[days|] [|]]]];
    try (intros [= _ <-]; now left).
  destruct (_ || _); [intros [= _ <-]; now left|].
  destruct (existsb _ _) eqn:Hd; [intros [= _ <-]; now left|].
  intros [= _ <-]. right. eexists. split; [reflexivity|].
  cbn [sql.col_id]. now apply existsb_id_false.
Qed.

Lemma Insert_primary_key title0 content0 days now f db r db' :
  primary_key db ->
  Insert the_model title0 content0 days now f db = (r, db') ->
  primary_key db'.
Proof.
  unfold primary_key, Insert. intros Hpk.
  destruct (sql.Stmt_Exec _ _ now f db) as [res d] eqn:Hex.
  intros Hr. assert (d = db') as ->.
  { destruct res as [result|e]; [destruct (sql.LastInsertId result) as [i [e|]]|];
      now injection Hr. }
  apply Stmt_Exec_rows in Hex as [->|(t & -> & Hfresh)]; [assumption|].
  rewrite map_app. cbn [List.map]. apply NoDup_app. repeat split.
  - assumption.
  - intros x Hx ->%list_elem_of_singleton.
    apply list_elem_of_In, in_map_iff in Hx as (t' & E & Ht').
    now apply (Hfresh t' Ht').
  - apply NoDup_singleton.
Qed.

(** ** The terminal error of the cursor *)

(** C4: once the driver has accepted the query, [Latest] reads its
    cursor to the end and then asks it for its error.  The cursor the
    query hands over holds every record it will deliver and shows no
    error yet: the error only shows once the iteration is over.  When
    the records delivered are all mapped, the cursor [Latest] leaves is
    the one read to its end and closed, no record unread, and the error
    it then reports decides the call: with an error (the one that broke
    the iteration after [n] records, or the one of closing the cursor
    at the end of the records) the call fails with that very error,
    the list nil, whatever was mapped before; with none the call
    succeeds with every record of the result set.  Whatever the scans
    do, an error the cursor has to report makes the call fail, with an
    error that is not [ErrNoRecord]; the only way the call leaves a
    record unread is to fail with the error of the [Scan] of a record;
    and a call that succeeds has left no record unread, has seen no
    error of the cursor, and returns every record of the result set. *)
Theorem Latest_checks_cursor_error now f db :
  sql.query_err f = None ->
  (sql.pending (query_cursor f (latest_rows db)) = cursor_records f (latest_rows db) /\
   sql.Rows_Err (query_cursor f (latest_rows db)) = None) /\
  ((forall t, In t (cursor_records f (latest_rows db)) -> sql.scan_err f t = None) ->
     fst (fst (Latest_cursor the_model now f db))
       = Some (ended f (query_cursor f (latest_rows db))) /\
     unread (Latest_cursor the_model now f db) = [] /\
     sql.Rows_Err (ended f (query_cursor f (latest_rows db))) = end_error f /\
     (forall e, end_error f = Some e ->
        fst (Latest the_model now f db) = (None, Some e)) /\
     (end_error f = None ->
        fst (Latest the_model now f db)
          = (Some (List.map snippet_of (latest_rows db)), None))) /\
  (forall e, end_error f = Some e ->
     exists e', fst (Latest the_model now f db) = (None, Some e') /\
                errors_Is e' ErrNoRecord = false) /\
  (forall n msg, sql.next_err f = Some (n, msg) ->
     end_error f = Some (DriverError msg) /\
     (exists e, fst (Latest the_model now f db) = (None, Some e) /\
                errors_Is e ErrNoRecord = false) /\
     ((forall t, In t (take n (latest_rows db)) -> sql.scan_err f t = None) ->
        unread (Latest_cursor the_model now f db) = [] /\
        fst (Latest the_model now f db) = (None, Some (DriverError msg)))) /\
  (forall msg, sql.next_err f = None -> sql.close_err f = Some msg ->
     end_error f = Some (DriverError msg)) /\
  (fst (fst (Latest_cursor the_model now f db))
     = Some (ended f (query_cursor f (latest_rows db))) \/
   exists pre t post msg,
     cursor_records f (latest_rows db) = (pre ++ t :: post)%list /\
     sql.scan_err f t = Some msg /\
     unread (Latest_cursor the_model now f db) = post /\
     fst (Latest the_model now f db) = (None, Some (DriverError msg))) /\
  (forall l, fst (Latest the_model now f db) = (Some l, None) ->
     end_error f = None /\ sql.next_err f = None /\
     unread (Latest_cursor the_model now f db) = [] /\
     l = List.map snippet_of (latest_rows db)).
Proof.
  intros Hq.
  assert (forall e, end_error f = Some e ->
            exists e', fst (Latest the_model now f db) = (None, Some e') /\
                       errors_Is e' ErrNoRecord = false) as Hfail.
  { intros e He. rewrite Latest_of_cursor. cbn [fst].
    destruct (first_failure f (cursor_records f (latest_rows db)))
      as [Hall|(pre & t & post & msg & E & Hpre & Ht)].
    - rewrite (Latest_cursor_run _ _ _ Hq Hall), He. cbn [fst snd].
      apply end_error_driver in He as [msg ->]. eexists. split; reflexivity.
    - rewrite (Latest_cursor_halt _ _ _ _ _ _ _ Hq E Hpre Ht). cbn [fst snd].
      eexists. split; reflexivity. }
  assert (forall n msg, sql.next_err f = Some (n, msg) -> end_error f = Some (DriverError msg))
    as Hbreak.
  { intros n msg Hn. unfold end_error. now rewrite Hn. }
  split; [split; reflexivity|].
  split; [|split; [exact Hfail|split; [|split; [|split]]]].
  - intros Hall. rewrite Latest_of_cursor, (Latest_cursor_run _ _ _ Hq Hall). cbn [fst snd].
    split; [reflexivity|]. split; [reflexivity|]. split; [apply Rows_Err_ended|].
    split.
    + intros e ->. reflexivity.
    + intros He. rewrite He. apply end_error_None in He as [Hn _].
      unfold cursor_records. now rewrite Hn.
  - intros n msg Hn. split; [now apply (Hbreak n)|]. split; [apply (Hfail _ (Hbreak n msg Hn))|].
    intros Hall.
    assert (forall t, In t (cursor_records f (latest_rows db)) -> sql.scan_err f t = None) as Hall'.
    { unfold cursor_records. now rewrite Hn. }
    rewrite Latest_of_cursor, (Latest_cursor_run _ _ _ Hq Hall'), (Hbreak n msg Hn).
    split; reflexivity.
  - intros msg Hn Hc. unfold end_error. now rewrite Hn, Hc.
  - destruct (first_failure f (cursor_records f (latest_rows db)))
      as [Hall|(pre & t & post & msg & E & Hpre & Ht)].
    + left. now rewrite (Latest_cursor_run _ _ _ Hq Hall).
    + right. exists pre, t, post, msg.
      rewrite Latest_of_cursor, (Latest_cursor_halt _ _ _ _ _ _ _ Hq E Hpre Ht).
      repeat split; assumption.
  - intros l H. pose proof (Latest_success _ _ _ _ H) as (_ & Hn & Hu & Hl & Hall).
    repeat split; auto.
    destruct (end_error f) as [e|] eqn:He; [|reflexivity].
    destruct (Hfail e eq_refl) as (e' & E & _). congruence.
Qed.

(** ** Failure paths *)

Lemma Insert_paths m title0 content0 days now f db :
  (forall id e, fst (Insert m title0 content0 days now f db) = (id, Some e) -> id = 0) /\
  (forall id, fst (Insert m title0 content0 days now f db) = (id, None) ->
     sql.exec_err f = None /\ sql.last_insert_id_err f = None).
Proof.
  unfold Insert.
  destruct (sql.Stmt_Exec _ _ now f db) as [[result|e0] d] eqn:Hex.
  - assert (sql.exec_err f = None /\
            sql.result_id_err result = DriverError <$> sql.last_insert_id_err f) as [He Hr].
    { revert Hex. unfold sql.Stmt_Exec. destruct (sql.exec_err f); [discriminate|].
      destruct (InsertStmt m); [|discriminate].
      cbv beta iota.
      destruct (_ || _); [discriminate|]. destruct (existsb _ _); [discriminate|].
      intros [= <- _]. now split. }
    unfold sql.LastInsertId. rewrite Hr.
    destruct (sql.last_insert_id_err f); cbn [fmap option_fmap option_map fst]; split;
      intros; try discriminate; try congruence; auto.
  - cbn [fst]. split; intros; [congruence|discriminate].
Qed.

Lemma Get_paths m id now f db :
  (forall s e, fst (Get m id now f db) = (s, Some e) -> s = None) /\
  (forall s, fst (Get m id now f db) = (s, None) ->
     sql.query_err f = None /\ sql.close_err f = None /\ exists t, s = Some (snippet_of t) /\
     sql.scan_err f t = None).
Proof.
  unfold Get.
  destruct (sql.Stmt_QueryRow _ _ now f db) as [row d] eqn:Hrow.
  destruct (sql.Row_Scan f row) as [cols|e0] eqn:Hscan.
  - cbn [fst]. split; [discriminate|]. intros s [= <-].
    revert Hrow Hscan. unfold sql.Stmt_QueryRow.
    destruct (sql.Stmt_Query _ _ now f db) as [[rs|err] d'] eqn:HQ.
    2: { intros [= <- _]. discriminate. }
    apply Stmt_Query_rows in HQ as (Hq & _ & result & ->).
    intros [= <- _]. rewrite Row_Scan_query.
    destruct (cursor_records f result) as [|t r].
    { destruct (end_error f); discriminate. }
    destruct (sql.scan_err f t) eqn:Hs; [discriminate|].
    destruct (sql.close_err f); [discriminate|]. intros [= <-].
    repeat split; auto. now exists t.
  - destruct (errors_Is e0 sql.ErrNoRows); cbn [fst]; split; intros; congruence.
Qed.

Lemma Latest_paths m now f db :
  (forall l e, fst (Latest m now f db) = (l, Some e) -> l = None) /\
  (forall l, fst (Latest m now f db) = (l, None) ->
     sql.query_err f = None /\ sql.next_err f = None /\ exists s, l = Some s).
Proof.
  rewrite Latest_of_cursor. cbn [fst]. unfold Latest_cursor.
  destruct (sql.Stmt_Query _ _ now f db) as [[rows|e0] d] eqn:HQ.
  - apply Stmt_Query_rows in HQ as (Hq & _ & result & ->).
    destruct (Latest_loop_cases f result [])
      as [[_ ->]|(pre & t & post & msg & _ & _ & _ & ->)]; cbn [fst snd].
    + rewrite Rows_Err_ended. destruct (end_error f) as [e|] eqn:He; cbn [fst snd].
      * split; intros; congruence.
      * apply end_error_None in He as [Hn _]. split; [intros; congruence|].
        intros l [= <-]. eauto.
    + split; intros; congruence.
  - cbn [fst snd]. split; intros; congruence.
Qed.

(** C6: every failure path of [Insert], [Get] and [Latest] returns
    its error together with the zero result (the identifier 0, the
    nil snippet, the nil list); and no error is swallowed: a call that
    returns the nil error has met no failure of the driver on its
    path, so every failure the driver reports on the path comes back
    as an error. *)
Theorem failure_paths_return_zero_and_error m now f db :
  (forall title0 content0 days id e,
     fst (Insert m title0 content0 days now f db) = (id, Some e) -> id = 0) /\
  (forall id s e, fst (Get m id now f db) = (s, Some e) -> s = None) /\
  (forall l e, fst (Latest m now f db) = (l, Some e) -> l = None) /\
  (forall title0 content0 days id,
     fst (Insert m title0 content0 days now f db) = (id, None) ->
     sql.exec_err f = None /\ sql.last_insert_id_err f = None) /\
  (forall id s, fst (Get m id now f db) = (s, None) ->
     sql.query_err f = None /\ sql.close_err f = None /\
     exists t, s = Some (snippet_of t) /\ sql.scan_err f t = None) /\
  (forall l, fst (Latest m now f db) = (l, None) ->
     sql.query_err f = None /\ sql.next_err f = None /\ exists s, l = Some s) /\
  (forall l, fst (Latest the_model now f db) = (Some l, None) ->
     forall t, In t (latest_rows db) -> sql.scan_err f t = None).
Proof.
  repeat apply conj.
  - intros t c d. apply Insert_paths.
  - intros id. apply Get_paths.
  - apply Latest_paths.
  - intros t c d. apply Insert_paths.
  - intros id. apply Get_paths.
  - apply Latest_paths.
  - intros l H. now apply Latest_success in H.
Qed.

(** ** The statements submitted *)

Lemma Stmt_Query_submits st args now f db :
  snd (sql.Stmt_Query st args now f db) = sql.submit st args db.
Proof.
  unfold sql.Stmt_Query. destruct (sql.query_err f); [reflexivity|].
  destruct st as [|w o l]; [reflexivity|]. destruct (negb _); [reflexivity|].
  now destruct (sql.next_err f) as [[n msg]|].
Qed.

Lemma Get_submits m id now f db :
  snd (Get m id now f db) = sql.submit (GetStmt m) [sql.VInt id] db.
Proof.
  unfold Get, sql.Stmt_QueryRow.
  pose proof (Stmt_Query_submits (GetStmt m) [sql.VInt id] now f db) as Hd.
  destruct (sql.Stmt_Query _ _ now f db) as [[rs|e] d]; cbn [snd] in Hd; subst d.
  - destruct (sql.Row_Scan f _) as [cols|e]; [reflexivity|].
    now destruct (errors_Is e sql.ErrNoRows).
  - cbn [sql.Row_Scan]. now destruct (errors_Is e sql.ErrNoRows).
Qed.

(** ** The theorems at concrete inputs *)

Lemma Get_returns_requested_id_witness :
  fst (Get the_model 3 1000 sql.no_faults three_db)
    = (Some (mkSnippet 3 "c" "cc" 200 2592200), None) /\
  ID (mkSnippet 3 "c" "cc" 200 2592200) = 3.
Proof.
  split; [vm_compute; reflexivity|].
  apply (Get_returns_requested_id 3 1000 sql.no_faults three_db).
  vm_compute; reflexivity.
Defined.

Lemma Get_not_found_witness :
  absent three_db 9 /\
  fst (Get the_model 9 1000 sql.no_faults three_db) = (None, Some (Sentinel ErrNoRecord)) /\
  exists msg, fst (Get the_model 9 1000 close_fails three_db) = (None, Some (DriverError msg)) /\
              errors_Is (DriverError msg) ErrNoRecord = false.
Proof.
  assert (absent three_db 9) as Habs.
  { intros t [[<-|[<-|[<-|[]]]] H]; vm_compute in H; discriminate. }
  split; [exact Habs|].
  pose proof (Get_not_found 9 1000 sql.no_faults three_db eq_refl eq_refl eq_refl
                (or_introl Habs)) as (H1 & _ & H3 & _).
  split; [exact H1|].
  apply (H3 close_fails). right. right. discriminate.
Defined.

Lemma Insert_Get_roundtrip_witness :
  0 < 7 /\
  exists s, fst (Get the_model 1 0 sql.no_faults (insert_at "a" "aa" 7 0 empty_db))
              = (Some s, None) /\ title s = "a" /\ content s = "aa".
Proof.
  split; [lia|].
  apply (Insert_Get_roundtrip "a" "aa" 7 0 sql.no_faults empty_db 1
           (insert_at "a" "aa" 7 0 empty_db) 0 sql.no_faults).
  - lia.
  - vm_compute; reflexivity.
  - vm_compute; reflexivity.
  - repeat split.
Defined.

Lemma Latest_descending_witness :
  primary_key three_db /\
  StronglySorted id_gt
    [mkSnippet 3 "c" "cc" 200 2592200; mkSnippet 2 "b" "bb" 100 86500;
     mkSnippet 1 "a" "aa" 0 604800].
Proof.
  assert (primary_key three_db) as Hpk.
  { unfold primary_key. apply (bool_decide_unpack _). vm_compute. exact I. }
  split; [exact Hpk|].
  apply (Latest_descending 1000 sql.no_faults three_db _ Hpk).
  vm_compute; reflexivity.
Defined.

Lemma Latest_checks_cursor_error_witness :
  sql.query_err broken_cursor = None /\
  unread (Latest_cursor the_model 1000 broken_cursor three_db) = [] /\
  fst (Latest the_model 1000 broken_cursor three_db)
    = (None, Some (DriverError "invalid connection")).
Proof.
  split; [reflexivity|].
  pose proof (Latest_checks_cursor_error 1000 broken_cursor three_db eq_refl)
    as (_ & Hrun & _).
  destruct Hrun as (_ & Hu & _ & He & _); [intros t _; reflexivity|].
  split; [exact Hu|]. apply He. reflexivity.
Defined.

Lemma failure_paths_return_zero_and_error_witness :
  fst (Insert the_model "a" "aa" 7 0 exec_refused empty_db)
    = (0, Some (DriverError "connection refused")) /\
  fst (fst (Insert the_model "a" "aa" 7 0 exec_refused empty_db)) = 0.
Proof.
  split; [vm_compute; reflexivity|].
  apply (proj1 (failure_paths_return_zero_and_error the_model 0 exec_refused empty_db)
           "a" "aa" 7 _ (DriverError "connection refused")).
  vm_compute; reflexivity.
Defined.

End models_spec.

(** * Decimal identifiers *)

Module strconv_spec.
Import golang.
Import strconv.

Lemma digit_range c d : digit c = Some d -> 0 <= d <= 9.
Proof.
  unfold digit. destruct (_ && _) eqn:E; [|discriminate].
  apply andb_true_iff in E as [H1 H2]. intros [= <-]. lia.
Qed.

Lemma digit_not_sign c d : digit c = Some d -> is_sign c = false /\ is_minus c = false.
Proof.
  unfold digit, is_sign, is_minus. destruct (_ && _) eqn:E; [|discriminate].
  apply andb_true_iff in E as [H1 H2]. intros _.
  apply Z.leb_le in H1, H2.
  split; [apply orb_false_iff; split|]; apply Nat.eqb_neq; lia.
Qed.

Lemma Digits_nonempty s v : Digits s v -> s <> EmptyString.
Proof. destruct 1; discriminate. Qed.

Lemma Digits_nonneg s v : Digits s v -> 0 <= v.
Proof.
  induction 1 as [c d Hd|c d s v Hd _ IH]; apply digit_range in Hd; [lia|].
  assert (0 <= 10 ^ Z.of_nat (String.length s)) by (apply Z.pow_nonneg; lia). nia.
Qed.

Lemma Digits_head c s v : Digits (String c s) v -> exists d, digit c = Some d.
Proof. inversion 1; eauto. Qed.

(** What the loop reads is what the numeral denotes. *)
Lemma ParseUint_loop_sound s :
  s <> EmptyString -> forall acc r, ParseUint_loop s acc = inl r ->
  exists v, Digits s v /\ r = acc * 10 ^ Z.of_nat (String.length s) + v.
Proof.
  induction s as [|c s IH]; [congruence|]. intros _ acc r. cbn [ParseUint_loop].
  destruct (digit c) as [d|] eqn:Hd; [|discriminate].
  destruct (_ <=? acc); [discriminate|]. cbv zeta.
  destruct (maxUint64 <? _); [discriminate|].
  destruct s as [|c' s'].
  - cbn [ParseUint_loop]. intros [= <-]. exists d. split; [now constructor|].
    cbn [String.length]. change (10 ^ Z.of_nat 1) with 10. lia.
  - intros H. apply IH in H as (v & Hv & ->); [|discriminate].
    exists (d * 10 ^ Z.of_nat (String.length (String c' s')) + v). split; [now constructor|].
    cbn [String.length]. rewrite !Nat2Z.inj_succ, !Z.pow_succ_r by lia. ring.
Qed.

(** On a numeral the loop yields its value, unless it leaves [uint64]. *)
Lemma ParseUint_loop_complete s v :
  Digits s v -> forall acc,
  ParseUint_loop s acc = inl (acc * 10 ^ Z.of_nat (String.length s) + v) \/
  ParseUint_loop s acc = inr ErrRange.
Proof.
  induction 1 as [c d Hd|c d s v Hd _ IH]; intros acc; cbn [ParseUint_loop]; rewrite Hd;
    (destruct (_ <=? acc); [now right|]); cbv zeta;
    (destruct (maxUint64 <? _); [now right|]).
  - left. cbn [ParseUint_loop String.length]. apply f_equal.
    change (10 ^ Z.of_nat 1) with 10. lia.
  - destruct (IH (acc * 10 + d)) as [->| ->]; [left|now right]. apply f_equal.
    cbn [String.length]. rewrite Nat2Z.inj_succ, Z.pow_succ_r by lia. ring.
Qed.

Lemma ParseUint_ok s un : ParseUint s = (un, None) -> Digits s un.
Proof.
  unfold ParseUint. destruct s as [|c s]; [discriminate|].
  destruct (ParseUint_loop (String c s) 0) as [n|[|]] eqn:Hl; try discriminate.
  intros [= <-]. apply ParseUint_loop_sound in Hl as (v & Hv & ->); [|discriminate].
  now rewrite Z.mul_0_l, Z.add_0_l.
Qed.

Lemma ParseUint_range s un : ParseUint s = (un, Some ErrRange) -> un = maxUint64.
Proof.
  unfold ParseUint. destruct s as [|c s]; [discriminate|].
  destruct (ParseUint_loop (String c s) 0) as [n|[|]]; try discriminate. now intros [= <-].
Qed.

Lemma ParseUint_value s v un : Digits s v -> ParseUint s = (un, None) -> un = v.
Proof.
  intros Hv. unfold ParseUint. pose proof (Digits_nonempty _ _ Hv).
  destruct s as [|c s]; [congruence|].
  destruct (ParseUint_loop_complete _ _ Hv 0) as [-> | ->]; [|discriminate].
  intros [= <-]. lia.
Qed.

Lemma sign_cases c : is_sign c = true -> c = "+"%char \/ c = "-"%char.
Proof.
  unfold is_sign. intros [H|H]%orb_true_iff; apply Nat.eqb_eq in H; [left|right];
    rewrite <- (ascii_nat_embedding c), H; reflexivity.
Qed.

(** The body [ParseInt] hands to [ParseUint], and the sign. *)
Lemma ParseInt_ok s n :
  ParseInt s = (n, None) -> Numeral s n /\ minInt64 <= n <= maxInt64.
Proof.
  unfold ParseInt. destruct s as [|c rest]; [discriminate|].
  set (body := if is_sign c then rest else String c rest).
  destruct (ParseUint body) as [un [[|]|]] eqn:HP.
  - discriminate.
  - apply ParseUint_range in HP as ->. cbv zeta.
    change (2 ^ (intSize - 1) <=? maxUint64) with true.
    change (2 ^ (intSize - 1) <? maxUint64) with true.
    destruct (is_minus c); discriminate.
  - apply ParseUint_ok in HP. pose proof (Digits_nonneg _ _ HP) as Hnn. cbv zeta.
    change (2 ^ (intSize - 1)) with (2 ^ 63).
    assert ((is_minus c = false -> Numeral (String c rest) un) /\
            (is_minus c = true -> Numeral (String c rest) (- un))) as [Hpos Hneg].
    { subst body. destruct (is_sign c) eqn:Hsign.
      - destruct (sign_cases c Hsign) as [-> | ->]; split; intros E;
          try discriminate E; now constructor.
      - destruct (Digits_head _ _ _ HP) as [d Hc]. apply digit_not_sign in Hc as [_ Hm].
        split; intros E; [now constructor|congruence]. }
    destruct (is_minus c); cbn [negb andb].
    + destruct (2 ^ 63 <? un) eqn:E; [discriminate|]. apply Z.ltb_ge in E.
      intros [= <-]. split; [auto|]. unfold minInt64, maxInt64. lia.
    + destruct (2 ^ 63 <=? un) eqn:E; [discriminate|]. apply Z.leb_gt in E.
      intros [= <-]. split; [auto|]. unfold minInt64, maxInt64. lia.
Qed.

Lemma Digits_functional s v : Digits s v -> forall v', Digits s v' -> v' = v.
Proof.
  induction 1 as [c d Hd|c d s v Hd Hs IH]; intros v' H'; inversion H'; subst.
  - congruence.
  - match goal with H : Digits EmptyString _ |- _ => now apply Digits_nonempty in H end.
  - now apply Digits_nonempty in Hs.
  - match goal with H : Digits s _ |- _ => apply IH in H as -> end. congruence.
Qed.

Lemma Digits_no_sign c s v : Digits (String c s) v -> is_sign c = false.
Proof. intros [d Hd]%Digits_head. now apply digit_not_sign in Hd. Qed.

(** A string denotes at most one number. *)
Lemma Numeral_functional s v v' : Numeral s v -> Numeral s v' -> v' = v.
Proof.
  destruct 1 as [s v Hv|s v Hv|s v Hv]; inversion 1 as [s0 w Hw|s0 w Hw|s0 w Hw]; subst;
    try (apply Digits_no_sign in Hv; discriminate Hv);
    try (apply Digits_no_sign in Hw; discriminate Hw).
  - now apply (Digits_functional _ _ Hv).
  - now apply (Digits_functional _ _ Hv).
  - f_equal. now apply (Digits_functional _ _ Hv).
Qed.

(** What [Atoi] accepts is a numeral, and its value. *)
Lemma Atoi_ok s n : Atoi s = (n, None) -> Numeral s n.
Proof.
  unfold Atoi. destruct (ParseInt s) as [i [cause|]] eqn:HP; [discriminate|].
  apply ParseInt_ok in HP as [HN Hr]. cbn [fmap option_fmap option_map].
  rewrite (golang_spec.int_id _ Hr). now intros [= <-].
Qed.

(** A numeral is read as its value or not at all. *)
Lemma Atoi_value s v n : Numeral s v -> Atoi s = (n, None) -> n = v.
Proof.
  intros HN HA. apply Atoi_ok in HA. now apply (Numeral_functional s v n).
Qed.

Lemma Values_Get_missing q key :
  (forall x, ~ In (key, x) q) -> http.Values_Get q key = "".
Proof.
  induction q as [|[k v] q IH]; intros H; [reflexivity|]. cbn [http.Values_Get].
  destruct (String.eqb_spec k key) as [->|_].
  - destruct (H v). now left.
  - apply IH. intros x Hx. apply (H x). now right.
Qed.

End strconv_spec.

(** * The helpers and the handlers *)

Module web_spec.
Import golang.
Import web.

Lemma final_code code :
  200 <= code <= 999 -> http.invalid_code code = false /\ http.informational code = false.
Proof.
  intros H. unfold http.invalid_code, http.informational. split.
  - apply orb_false_iff. split; apply Z.ltb_ge; lia.
  - replace (code <=? 199) with false by (symmetry; apply Z.leb_gt; lia).
    rewrite andb_false_r. reflexivity.
Qed.

(** A valid final code on a writer without a status fixes the status. *)
Lemma WriteHeader_final code w :
  200 <= code <= 999 -> http.status w = None ->
  http.WriteHeader_panics code w = false /\
  http.WriteHeader code w =
    http.mkResponseWriter (http.Header w) (Some code) (http.body w) (http.interim w)
      (http.panicked w).
Proof.
  intros Hc Hs. destruct (final_code code Hc) as [Hi Hf].
  unfold http.WriteHeader_panics, http.WriteHeader. now rewrite Hs, Hi, Hf.
Qed.

Lemma Fprintln_written s w code :
  http.status w = Some code -> http.bodyAllowedForStatus code = true ->
  http.Fprintln s w =
    http.mkResponseWriter (http.Header w) (Some code) (http.body w ++ s ++ http.nl)
      (http.interim w) (http.panicked w).
Proof.
  intros Hs Hb. unfold http.Fprintln, http.Write, http.WriteHeader.
  destruct w as [h st b i pn]. cbn in Hs. subst st. cbn [http.status].
  now rewrite Hb.
Qed.

(** Under a status that allows no body the text is dropped. *)
Lemma Fprintln_refused s w code :
  http.status w = Some code -> http.bodyAllowedForStatus code = false ->
  http.Fprintln s w = w.
Proof.
  intros Hs Hb. unfold http.Fprintln, http.Write, http.WriteHeader.
  rewrite Hs. cbn zeta. rewrite Hs. now rewrite Hb.
Qed.

Lemma http_Error_final w msg code :
  200 <= code <= 999 -> http.bodyAllowedForStatus code = true -> http.status w = None ->
  http.Error w msg code =
    http.mkResponseWriter
      (<["X-Content-Type-Options" := ["nosniff"]]>
         (<["Content-Type" := ["text/plain; charset=utf-8"]]>
            (delete "Content-Length" (http.Header w))))
      (Some code) (http.body w ++ msg ++ http.nl) (http.interim w) (http.panicked w).
Proof.
  intros Hc Hb Hs. unfold http.Error.
  match goal with |- context [http.WriteHeader_panics code ?w3] =>
    destruct (WriteHeader_final code w3 Hc Hs) as [-> ->] end.
  erewrite Fprintln_written by (try reflexivity; exact Hb). reflexivity.
Qed.

Lemma Write_fresh data w :
  http.status w = None ->
  http.Write data w =
    http.mkResponseWriter (http.Header w) (Some 200) (http.body w ++ data) (http.interim w)
      (http.panicked w).
Proof.
  intros Hs. destruct w as [h st b i pn]. cbn in Hs. subst st. reflexivity.
Qed.

(** Once the status is written, [http.Error] cannot change it: the
    headers are set all the same and the text is appended. *)
Lemma http_Error_written w msg code c :
  http.status w = Some c -> http.bodyAllowedForStatus c = true ->
  http.Error w msg code =
    http.mkResponseWriter
      (<["X-Content-Type-Options" := ["nosniff"]]>
         (<["Content-Type" := ["text/plain; charset=utf-8"]]>
            (delete "Content-Length" (http.Header w))))
      (Some c) (http.body w ++ msg ++ http.nl) (http.interim w) (http.panicked w).
Proof.
  intros Hs Hb. unfold http.Error, http.WriteHeader_panics, http.WriteHeader.
  cbn [http.Header_Set http.Header_Del http.status]. rewrite Hs.
  erewrite Fprintln_written by (try exact Hb; exact Hs). reflexivity.
Qed.

Lemma WriteHeader_Header code w : http.Header (http.WriteHeader code w) = http.Header w.
Proof.
  unfold http.WriteHeader. destruct (http.status w); [reflexivity|].
  destruct (http.invalid_code code); [reflexivity|].
  now destruct (http.informational code).
Qed.

Lemma http_Error_Header w msg code :
  http.Header (http.Error w msg code) =
    <["X-Content-Type-Options" := ["nosniff"]]>
      (<["Content-Type" := ["text/plain; charset=utf-8"]]>
         (delete "Content-Length" (http.Header w))).
Proof.
  unfold http.Error.
  match goal with |- context [http.WriteHeader_panics code ?w3] =>
    destruct (http.WriteHeader_panics code w3) end.
  - now rewrite WriteHeader_Header.
  - unfold http.Fprintln, http.Write. cbv zeta.
    match goal with |- context [if ?b then _ else _] => destruct b end;
      cbn [http.Header]; now rewrite !WriteHeader_Header.
Qed.

Lemma http_Error_response w msg code :
  200 <= code <= 999 -> http.bodyAllowedForStatus code = true ->
  http.status w = None ->
  http.status (http.Error w msg code) = Some code /\
  http.body (http.Error w msg code) = http.body w ++ msg ++ http.nl /\
  http.Header (http.Error w msg code) =
    <["X-Content-Type-Options" := ["nosniff"]]>
      (<["Content-Type" := ["text/plain; charset=utf-8"]]>
         (delete "Content-Length" (http.Header w))).
Proof.
  intros Hc Hb Hs. rewrite (http_Error_final _ _ _ Hc Hb Hs). repeat split.
Qed.

Section Handlers.
Variable debug_Stack : list log.Frame -> string.
Variable time_String : Z -> string.

(** C9: whatever error the reporter is given, and whatever the call
    stack and the state of the server are, the client receives the
    same response, which is [http.Error] with the generic text of
    status 500 on the writer and nothing else: status 500 and the
    body "Internal Server Error" when nothing has been written
    before.  On the server one entry is appended to the error log
    whose text is the description of the error, a line break and the
    full stack trace, and whose position, for a logger that records
    source positions (as the one [main] builds does), is the caller's,
    two frames above [Output], not the position inside [serverError];
    the database is left as it was. *)
Theorem serverError_generic_response app caller stack clock w err σ :
  (forall app' stack' clock' err' σ',
     fst (serverError debug_Stack app' stack' clock' w err' σ') =
     fst (serverError debug_Stack app (caller :: stack) clock w err σ)) /\
  fst (serverError debug_Stack app (caller :: stack) clock w err σ)
    = http.Error w "Internal Server Error" 500 /\
  (http.status w = None ->
     http.status (fst (serverError debug_Stack app (caller :: stack) clock w err σ))
       = Some 500 /\
     http.body (fst (serverError debug_Stack app (caller :: stack) clock w err σ))
       = http.body w ++ "Internal Server Error" ++ http.nl) /\
  (exists entry,
     stderr (snd (serverError debug_Stack app (caller :: stack) clock w err σ))
       = (stderr σ ++ [entry])%list /\
     log.entry_text entry =
       Error err ++ http.nl ++
       debug_Stack (in_helpers 13 "serverError" :: caller :: stack) /\
     (Z.land (log.flag (errorLog app)) (Z.lor log.Lshortfile log.Llongfile) <> 0 ->
        log.entry_pos entry = Some (log.frame_file caller, log.frame_line caller))) /\
  db (snd (serverError debug_Stack app (caller :: stack) clock w err σ)) = db σ.
Proof.
  unfold serverError. cbn [fst snd stderr db].
  split; [reflexivity|]. split; [reflexivity|]. split; [|split; [|reflexivity]].
  - intros Hs.
    destruct (http_Error_response w (http.StatusText http.StatusInternalServerError)
                http.StatusInternalServerError ltac:(vm_compute; split; discriminate) eq_refl Hs) as (H1 & H2 & _).
    now split.
  - eexists. split; [reflexivity|]. unfold log.Output. cbn [log.entry_text log.entry_pos].
    split; [reflexivity|]. intros Hflag.
    apply Z.eqb_neq in Hflag. rewrite Hflag. reflexivity.
Qed.

(** The response of [notFound]. *)
Lemma notFound_response app w :
  http.status w = None ->
  http.status (notFound app w) = Some 404 /\
  http.body (notFound app w) = http.body w ++ "Not Found" ++ http.nl.
Proof.
  intros Hs. unfold notFound, clientError.
  destruct (http_Error_response w (http.StatusText http.StatusNotFound)
              http.StatusNotFound ltac:(vm_compute; split; discriminate) eq_refl Hs) as (H1 & H2 & _). now split.
Qed.

(** The identifiers the view handler turns away before it touches
    the repository. *)
Lemma bad_id_rejected v :
  v = "" \/ (forall n, ~ strconv.Numeral v n) \/
  (exists n, strconv.Numeral v n /\ n <= 0) ->
  bool_decide (is_Some (snd (strconv.Atoi v))) || (fst (strconv.Atoi v) <? 1) = true.
Proof.
  intros H. destruct (strconv.Atoi v) as [n [e|]] eqn:HA; cbn [fst snd].
  - rewrite bool_decide_eq_true_2; [reflexivity | eauto].
  - rewrite bool_decide_eq_false_2 by (intros [x Hx]; discriminate). cbn [orb].
    apply Z.ltb_lt. destruct H as [->|[H|(n' & Hn' & Hle)]].
    + discriminate.
    + destruct (H n). now apply strconv_spec.Atoi_ok.
    + rewrite (strconv_spec.Atoi_value _ _ _ Hn' HA). lia.
Qed.

(** C7: when the parameter [id] of a request to the view handler is
    missing, is not a decimal numeral, or denotes zero or a negative
    number, the handler answers with [notFound] (status 404, body
    "Not Found") and leaves the server as it was: no statement
    reaches the database and nothing is logged.  The response is the
    very response a request with a well-formed positive identifier
    receives when no live snippet is stored under it and the driver
    reports no failure of its own: none of the query, none of the
    iteration, none of closing the cursor. *)
Theorem snippetView_bad_id app env stack w r σ :
  let v := http.Values_Get (http.URL_Query r) "id" in
  http.status w = None ->
  (forall x, ~ In ("id", x) (http.URL_Query r)) \/
  (forall n, ~ strconv.Numeral v n) \/
  (exists n, strconv.Numeral v n /\ n <= 0) ->
  snippetView debug_Stack time_String app env stack w r σ = (notFound app w, σ) /\
  http.status (notFound app w) = Some 404 /\
  http.body (notFound app w) = http.body w ++ "Not Found" ++ http.nl /\
  forall r' id',
    snippets app = models.the_model ->
    strconv.Atoi (http.Values_Get (http.URL_Query r') "id") = (id', None) ->
    1 <= id' ->
    sql.query_err (faults env) = None -> sql.next_err (faults env) = None ->
    sql.close_err (faults env) = None ->
    spec.absent (db σ) id' \/ spec.expired (db σ) (db_now env) id' ->
    fst (snippetView debug_Stack time_String app env stack w r' σ)
      = fst (snippetView debug_Stack time_String app env stack w r σ).
Proof.
  intros v Hs Hbad.
  assert (snippetView debug_Stack time_String app env stack w r σ = (notFound app w, σ)) as Hr.
  { unfold snippetView. fold v.
    assert (bool_decide (is_Some (snd (strconv.Atoi v))) || (fst (strconv.Atoi v) <? 1) = true) as K.
    { apply bad_id_rejected. destruct Hbad as [H|[H|H]]; auto.
      left. now apply strconv_spec.Values_Get_missing. }
    destruct (strconv.Atoi v) as [n e]. cbn [fst snd] in K. now rewrite K. }
  destruct (notFound_response app w Hs) as [H1 H2].
  repeat split; try assumption.
  intros r' id' Hm HA Hpos Hq Hn Hc Hid. rewrite Hr. cbn [fst].
  unfold snippetView. rewrite HA, Hm.
  rewrite bool_decide_eq_false_2 by (intros [x Hx]; discriminate). cbn [orb].
  rewrite (proj2 (Z.ltb_ge _ _) Hpos).
  destruct (models.Get models.the_model id' (db_now env) (faults env) (db σ))
    as [[s e] d] eqn:HG.
  pose proof (models_spec.Get_not_live id' (db_now env) (faults env) (db σ) Hq Hn Hc Hid)
    as HG'.
  rewrite HG in HG'. cbn [fst] in HG'. injection HG' as -> ->. reflexivity.
Qed.

(** By contrast, a well-formed positive identifier reaches the
    repository: exactly one statement, the one of [Get], is submitted. *)
Lemma snippetView_queries_repository app env stack w r σ id :
  strconv.Atoi (http.Values_Get (http.URL_Query r) "id") = (id, None) ->
  1 <= id ->
  sql.submitted (db (snd (snippetView debug_Stack time_String app env stack w r σ)))
    = (sql.submitted (db σ) ++ [(models.GetStmt (snippets app), [sql.VInt id])])%list.
Proof.
  intros HA Hpos. unfold snippetView. rewrite HA.
  rewrite bool_decide_eq_false_2 by (intros [x Hx]; discriminate). cbn [orb].
  rewrite (proj2 (Z.ltb_ge _ _) Hpos).
  assert (snd (models.Get (snippets app) id (db_now env) (faults env) (db σ))
          = sql.submit (models.GetStmt (snippets app)) [sql.VInt id] (db σ)) as Hd.
  { apply models_spec.Get_submits. }
  destruct (models.Get (snippets app) id (db_now env) (faults env) (db σ)) as [[s e] d].
  cbn [snd] in Hd. subst d.
  destruct e as [e|]; [destruct (errors_Is e models.ErrNoRecord)|]; reflexivity.
Qed.

(** A storage failure behind the view handler: the client gets the
    generic 500, the log gets the message of the driver at the position
    of the call in the handler. *)
Lemma snippetView_storage_fault app env stack w r σ id msg :
  snippets app = models.the_model -> errorLog app = main_errorLog ->
  strconv.Atoi (http.Values_Get (http.URL_Query r) "id") = (id, None) ->
  1 <= id ->
  sql.query_err (faults env) = Some msg ->
  fst (snippetView debug_Stack time_String app env stack w r σ)
    = http.Error w "Internal Server Error" 500 /\
  stderr (snd (snippetView debug_Stack time_String app env stack w r σ))
    = (stderr σ ++
       [log.mkEntry ("ERROR" ++ tab) (Some (clock env)) (Some ("handlers.go", 71))
          (msg ++ http.nl ++
           debug_Stack (in_helpers 13 "serverError" :: in_handlers 71 "snippetView" :: stack))])%list.
Proof.
  intros Hm Hl HA Hpos Hq. unfold snippetView. rewrite HA, Hm.
  rewrite bool_decide_eq_false_2 by (intros [x Hx]; discriminate). cbn [orb].
  rewrite (proj2 (Z.ltb_ge _ _) Hpos).
  pose proof (models_spec.Get_query_fault id (db_now env) (faults env) (db σ) msg Hq) as HG.
  destruct (models.Get models.the_model id (db_now env) (faults env) (db σ)) as [[s e] d].
  cbn [fst] in HG. injection HG as -> ->.
  cbn [errors_Is]. unfold serverError. rewrite Hl. split; reflexivity.
Qed.

(** C8: a request to the create handler with any method other than
    POST is answered with status 405, the header [Allow: POST] and
    the body "Method Not Allowed", and leaves the server as it was:
    no statement reaches the database, no record is inserted. *)
Theorem snippetCreate_method_not_allowed app env stack w r σ :
  http.Method r <> http.MethodPost ->
  http.status w = None ->
  snd (snippetCreate debug_Stack app env stack w r σ) = σ /\
  http.status (fst (snippetCreate debug_Stack app env stack w r σ)) = Some 405 /\
  http.Header (fst (snippetCreate debug_Stack app env stack w r σ)) !! "Allow"
    = Some [http.MethodPost] /\
  http.body (fst (snippetCreate debug_Stack app env stack w r σ))
    = http.body w ++ "Method Not Allowed" ++ http.nl.
Proof.
  intros Hm Hs. unfold snippetCreate.
  rewrite (proj2 (String.eqb_neq _ _) Hm). cbn [negb fst snd]. unfold clientError.
  destruct (http_Error_response (http.Header_Set "Allow" http.MethodPost w)
              (http.StatusText http.StatusMethodNotAllowed)
              http.StatusMethodNotAllowed ltac:(vm_compute; split; discriminate) eq_refl Hs) as (H1 & H2 & H3).
  repeat split; try assumption.
  rewrite H3. cbn [http.Header_Set http.Header].
  rewrite !lookup_insert_ne by discriminate.
  rewrite lookup_delete_ne by discriminate.
  apply lookup_insert_eq.
Qed.

End Handlers.

(** ** The theorems at concrete inputs *)

Lemma serverError_generic_response_witness :
  http.status http.fresh = None /\
  http.status
    (fst (serverError spec.stack_txt main_app
            [in_handlers 71 "snippetView"] 5 http.fresh
            (DriverError "dial tcp: connection refused") spec.three_world)) = Some 500.
Proof.
  split; [reflexivity|].
  apply (serverError_generic_response spec.stack_txt main_app
           (in_handlers 71 "snippetView") [] 5 http.fresh
           (DriverError "dial tcp: connection refused") spec.three_world).
  reflexivity.
Defined.

Lemma snippetView_bad_id_witness :
  strconv.Numeral "-5" (- 5) /\
  snippetView spec.stack_txt spec.time_txt main_app (spec.quiet_env 1000) [] http.fresh
    (http.mkRequest "GET" "/snippet/view" [("id", "-5")]) spec.three_world
  = (notFound main_app http.fresh, spec.three_world).
Proof.
  assert (strconv.Numeral "-5" (- 5)) as HN.
  { apply (strconv.Numeral_minus "5" 5), strconv.Digits_one. reflexivity. }
  split; [exact HN|].
  apply (snippetView_bad_id spec.stack_txt spec.time_txt main_app (spec.quiet_env 1000) []
           http.fresh (http.mkRequest "GET" "/snippet/view" [("id", "-5")])
           spec.three_world eq_refl).
  right. right. exists (- 5). split; [exact HN | lia].
Defined.

Lemma snippetCreate_method_not_allowed_witness :
  http.Method (http.mkRequest "GET" "/snippet/create" []) <> http.MethodPost /\
  snd (snippetCreate spec.stack_txt main_app (spec.quiet_env 1000) [] http.fresh
         (http.mkRequest "GET" "/snippet/create" []) spec.three_world)
  = spec.three_world.
Proof.
  assert (http.Method (http.mkRequest "GET" "/snippet/create" []) <> http.MethodPost)
    as Hm by (vm_compute; discriminate).
  split; [exact Hm|].
  apply (snippetCreate_method_not_allowed spec.stack_txt main_app (spec.quiet_env 1000) []
           http.fresh (http.mkRequest "GET" "/snippet/create" []) spec.three_world
           Hm eq_refl).
Defined.

End web_spec.

(** * The repository: effects, frames and edges *)

Module models_more.
Import golang.
Import models.
Import spec.
Import spec_more.

(** ** The constructor *)

(** [NewSnippetModel] prepares the insert, the get and the latest
    statement in this order.  It succeeds exactly when the server
    accepts all three, and then returns the three statements of the
    source; otherwise it returns the nil model and the error of the
    first statement refused. *)
Theorem NewSnippetModel_result f :
  (NewSnippetModel f = (Some the_model, None) <->
     sql.prepare_err f insert_query = None /\ sql.prepare_err f get_query = None /\
     sql.prepare_err f latest_query = None) /\
  (forall m e, NewSnippetModel f = (m, Some e) ->
     m = None /\
     (sql.prepare_err f insert_query = Some (Error e) \/
      sql.prepare_err f insert_query = None /\
      (sql.prepare_err f get_query = Some (Error e) \/
       sql.prepare_err f get_query = None /\
       sql.prepare_err f latest_query = Some (Error e)))) /\
  (forall m, NewSnippetModel f = (m, None) -> m = Some the_model).
Proof.
  unfold NewSnippetModel, sql.Prepare.
  destruct (sql.prepare_err f insert_query) as [m1|];
    [|destruct (sql.prepare_err f get_query) as [m2|];
      [|destruct (sql.prepare_err f latest_query) as [m3|]]].
  - split; [split; [discriminate|intros (H & _); discriminate]|].
    split; [|discriminate]. intros m e [= <- <-]. auto.
  - split; [split; [discriminate|intros (_ & H & _); discriminate]|].
    split; [|discriminate]. intros m e [= <- <-]. auto.
  - split; [split; [discriminate|intros (_ & _ & H); discriminate]|].
    split; [|discriminate]. intros m e [= <- <-]. auto 6.
  - split; [split; auto|]. split; [discriminate|]. now intros m [= <-].
Qed.

(** ** [Insert] *)

Lemma Insert_unfold m title0 content0 days now f db :
  Insert m title0 content0 days now f db =
    let '(res, db') :=
      sql.Stmt_Exec (InsertStmt m) [sql.VText title0; sql.VText content0; sql.VInt days]
                    now f db in
    match res with
    | inr err => ((0, Some err), db')
    | inl result =>
        match sql.LastInsertId result with
        | (_, Some err) => ((0, Some err), db')
        | (id, None) => ((int id, None), db')
        end
    end.
Proof. reflexivity. Qed.

Lemma accepts_checks db :
  accepts db <->
  (sql.auto_increment db <? 1) || (maxInt64 <? sql.auto_increment db) = false /\
  existsb (fun t => sql.col_id t =? sql.auto_increment db) (sql.snippets db) = false.
Proof.
  unfold accepts. rewrite orb_false_iff, !Z.ltb_ge. split.
  - intros [Hr Hf]. split; [lia|].
    destruct (existsb _ _) eqn:E; [|reflexivity].
    apply existsb_exists in E as (t & Ht & Heq). apply Z.eqb_eq in Heq.
    now destruct (Hf t Ht).
  - intros [Hr He]. split; [lia|]. now apply models_spec.existsb_id_false.
Qed.

(** The statement of [Insert] on an engine that accepts the key. *)
Lemma Stmt_Exec_accepted title0 content0 days now f db :
  sql.exec_err f = None -> accepts db ->
  sql.Stmt_Exec sql.INSERT_snippet [sql.VText title0; sql.VText content0; sql.VInt days]
                now f db =
    (inl {| sql.result_id := sql.auto_increment db;
            sql.result_id_err := DriverError <$> sql.last_insert_id_err f |},
     after_insert db title0 content0 days now).
Proof.
  intros He [Hr Hx]%accepts_checks. unfold sql.Stmt_Exec. now rewrite He, Hr, Hx.
Qed.

(** ... and on an engine that does not, or behind a failing driver. *)
Lemma Stmt_Exec_refused title0 content0 days now f db res db' :
  sql.Stmt_Exec sql.INSERT_snippet [sql.VText title0; sql.VText content0; sql.VInt days]
                now f db = (res, db') ->
  sql.exec_err f <> None \/ ~ accepts db ->
  (exists e, res = inr e) /\
  db' = sql.submit sql.INSERT_snippet
          [sql.VText title0; sql.VText content0; sql.VInt days] db.
Proof.
  unfold sql.Stmt_Exec. destruct (sql.exec_err f) as [msg|].
  - intros [= <- <-] _. eauto.
  - intros H [Hc|Hc]; [congruence|]. revert H.
    destruct (_ || _) eqn:Hr; [intros [= <- <-]; eauto|].
    destruct (existsb _ _) eqn:Hx; [intros [= <- <-]; eauto|].
    destruct Hc. now apply accepts_checks.
Qed.

Lemma classic_accepts db : accepts db \/ ~ accepts db.
Proof.
  destruct ((sql.auto_increment db <? 1) || (maxInt64 <? sql.auto_increment db)) eqn:Hr;
    [right; intros [H _]%accepts_checks; congruence|].
  destruct (existsb (fun t => sql.col_id t =? sql.auto_increment db) (sql.snippets db))
    eqn:Hx; [right; intros [_ H]%accepts_checks; congruence|].
  left. now apply accepts_checks.
Qed.

Lemma int_key db : accepts db -> int (sql.auto_increment db) = sql.auto_increment db.
Proof.
  intros [Hr _]. apply golang_spec.int_id. unfold minInt64, maxInt64 in *. lia.
Qed.

Lemma Insert_accepted title0 content0 days now f db :
  sql.exec_err f = None -> sql.last_insert_id_err f = None -> accepts db ->
  Insert the_model title0 content0 days now f db =
    ((sql.auto_increment db, None), after_insert db title0 content0 days now).
Proof.
  intros He Hl Hacc. rewrite Insert_unfold. cbn [the_model InsertStmt insert_query].
  rewrite (Stmt_Exec_accepted _ _ _ _ _ _ He Hacc). unfold sql.LastInsertId.
  cbn [sql.result_id_err sql.result_id]. rewrite Hl. cbn [fmap option_fmap option_map].
  now rewrite (int_key _ Hacc).
Qed.

(** On a healthy connection to an engine that accepts the key,
    [Insert] returns the key and leaves the table with one more record,
    the last: the title and the content as given, created at the time
    of the engine, expiring the given number of days later; the counter
    has advanced by one.  And an [Insert] that returns the nil error
    has done exactly that. *)
Theorem Insert_stores_record title0 content0 days now f db :
  (sql.exec_err f = None -> sql.last_insert_id_err f = None -> accepts db ->
     Insert the_model title0 content0 days now f db =
       ((sql.auto_increment db, None), after_insert db title0 content0 days now)) /\
  (forall id db',
     Insert the_model title0 content0 days now f db = ((id, None), db') ->
     id = sql.auto_increment db /\ db' = after_insert db title0 content0 days now /\
     accepts db).
Proof.
  split.
  - apply Insert_accepted.
  - intros id db' H.
    assert (sql.exec_err f = None /\ sql.last_insert_id_err f = None) as [He Hl].
    { eapply (proj2 (models_spec.Insert_paths the_model title0 content0 days now f db)).
      rewrite H. reflexivity. }
    destruct (classic_accepts db) as [Hacc|Hno].
    + rewrite (Insert_accepted _ _ _ _ _ _ He Hl Hacc) in H. now injection H as <- <-.
    + revert H. rewrite Insert_unfold. cbn [the_model InsertStmt insert_query].
      destruct (sql.Stmt_Exec _ _ now f db) as [res d] eqn:Hex.
      destruct (Stmt_Exec_refused _ _ _ _ _ _ _ _ Hex (or_intror Hno)) as [[e ->] _].
      discriminate.
Qed.

Lemma Insert_lost_id title0 content0 days now f db msg :
  sql.exec_err f = None -> accepts db -> sql.last_insert_id_err f = Some msg ->
  Insert the_model title0 content0 days now f db =
    ((0, Some (DriverError msg)), after_insert db title0 content0 days now).
Proof.
  intros He Hacc Hl. rewrite Insert_unfold. cbn [the_model InsertStmt insert_query].
  rewrite (Stmt_Exec_accepted _ _ _ _ _ _ He Hacc). unfold sql.LastInsertId.
  cbn [sql.result_id_err sql.result_id]. now rewrite Hl.
Qed.

(** When [Insert] fails the record may be in the table all the same.
    A failure of the execution (the driver, or an engine that does not
    accept the key) leaves the table and the counter as they were; but
    when the execution has succeeded and only the identifier cannot be
    retrieved, [Insert] returns 0 and the error while the record stays
    stored: nothing is rolled back. *)
Theorem Insert_failure_effects title0 content0 days now f db :
  (sql.exec_err f <> None \/ ~ accepts db ->
     exists e, Insert the_model title0 content0 days now f db =
       ((0, Some e),
        sql.submit sql.INSERT_snippet
          [sql.VText title0; sql.VText content0; sql.VInt days] db)) /\
  (forall msg, sql.exec_err f = None -> accepts db ->
     sql.last_insert_id_err f = Some msg ->
     Insert the_model title0 content0 days now f db =
       ((0, Some (DriverError msg)), after_insert db title0 content0 days now)).
Proof.
  split.
  - intros Hc. rewrite Insert_unfold. cbn [the_model InsertStmt insert_query].
    destruct (sql.Stmt_Exec _ _ now f db) as [res d] eqn:Hex.
    destruct (Stmt_Exec_refused _ _ _ _ _ _ _ _ Hex Hc) as [[e ->] ->]. now exists e.
  - intros msg He Hacc Hl. now apply Insert_lost_id.
Qed.

(** Whatever [Insert] returns, the table afterwards is the old one, or
    the old one followed by one record under the key of the counter. *)
Lemma Insert_table title0 content0 days now f db r db' :
  Insert the_model title0 content0 days now f db = (r, db') ->
  sql.snippets db' = sql.snippets db \/
  sql.snippets db' = (sql.snippets db ++ [inserted db title0 content0 days now])%list.
Proof.
  rewrite Insert_unfold. cbn [the_model InsertStmt insert_query].
  destruct (classic_accepts db) as [Hacc|Hno];
    [destruct (sql.exec_err f) as [msg|] eqn:He|].
  - destruct (sql.Stmt_Exec _ _ now f db) as [res d] eqn:Hex.
    assert (sql.exec_err f <> None \/ ~ accepts db) as Hc by (left; congruence).
    destruct (Stmt_Exec_refused _ _ _ _ _ _ _ _ Hex Hc) as [[e ->] ->].
    intros [= _ <-]. now left.
  - rewrite (Stmt_Exec_accepted _ _ _ _ _ _ He Hacc).
    destruct (sql.LastInsertId _) as [i [e|]]; intros [= _ <-]; now right.
  - destruct (sql.Stmt_Exec _ _ now f db) as [res d] eqn:Hex.
    destruct (Stmt_Exec_refused _ _ _ _ _ _ _ _ Hex (or_intror Hno)) as [[e ->] ->].
    intros [= _ <-]. now left.
Qed.

(** What [Get] answers is decided by the result set of its statement
    and by the driver. *)
Lemma Get_depends_on_rows id now f db1 db2 :
  get_rows now id db1 = get_rows now id db2 ->
  fst (Get the_model id now f db1) = fst (Get the_model id now f db2).
Proof.
  intros E. destruct (sql.query_err f) as [msg|] eqn:Hq.
  - now rewrite !(models_spec.Get_query_fault _ _ _ _ _ Hq).
  - rewrite !(models_spec.Get_unfold _ _ _ _ Hq). cbn [fst]. now rewrite E.
Qed.

(** [Insert] does not disturb the other snippets: whatever it returns,
    a [Get] of any identifier other than the key of the counter answers
    after the insert what it would have answered before. *)
Theorem Insert_preserves_other_Get title0 content0 days now f db r db' id now' g :
  Insert the_model title0 content0 days now f db = (r, db') ->
  id <> sql.auto_increment db ->
  fst (Get the_model id now' g db') = fst (Get the_model id now' g db).
Proof.
  intros Hins Hid. apply Get_depends_on_rows. unfold get_rows.
  destruct (Insert_table _ _ _ _ _ _ _ _ Hins) as [-> | ->]; [reflexivity|].
  rewrite List.filter_app. cbn [List.filter inserted sql.col_id sql.col_expires].
  rewrite (proj2 (Z.eqb_neq (sql.auto_increment db) id)) by congruence.
  rewrite andb_false_r. apply app_nil_r.
Qed.

(** ** Queries never write *)

Lemma Stmt_Query_db st args now f db :
  snd (sql.Stmt_Query st args now f db) = sql.submit st args db.
Proof. apply models_spec.Stmt_Query_submits. Qed.

Lemma Get_db m id now f db :
  snd (Get m id now f db) = sql.submit (GetStmt m) [sql.VInt id] db.
Proof. apply models_spec.Get_submits. Qed.

Lemma Latest_db m now f db :
  snd (Latest m now f db) = sql.submit (LatestStmt m) [] db.
Proof.
  rewrite models_spec.Latest_of_cursor. cbn [snd]. unfold Latest_cursor.
  pose proof (Stmt_Query_db (LatestStmt m) [] now f db) as Hd.
  destruct (sql.Stmt_Query _ _ now f db) as [[rs|e] d]; cbn [snd] in Hd; subst d;
    [|reflexivity].
  destruct (Latest_loop f _ rs []) as [u [s|e]]; [|reflexivity].
  now destruct (sql.Rows_Err u).
Qed.

(** [Get] and [Latest] never write: whatever the prepared statements,
    the driver and the outcome are, the table and the counter are
    untouched, and exactly one statement has been submitted, the one of
    the method with its arguments. *)
Theorem Get_Latest_read_only m now f db :
  (forall id, snd (Get m id now f db) = sql.submit (GetStmt m) [sql.VInt id] db) /\
  snd (Latest m now f db) = sql.submit (LatestStmt m) [] db /\
  (forall id, sql.snippets (snd (Get m id now f db)) = sql.snippets db /\
              sql.auto_increment (snd (Get m id now f db)) = sql.auto_increment db) /\
  sql.snippets (snd (Latest m now f db)) = sql.snippets db /\
  sql.auto_increment (snd (Latest m now f db)) = sql.auto_increment db.
Proof.
  split; [intros id; apply Get_db|]. split; [apply Latest_db|]. split.
  - intros id. now rewrite Get_db.
  - now rewrite Latest_db.
Qed.

(** ** [Get] *)

Lemma no_key_no_rows now k (l : list sql.Tuple) :
  (forall x, In x l -> sql.col_id x <> k) ->
  List.filter (fun x => (now <? sql.col_expires x) && (sql.col_id x =? k)) l = [].
Proof.
  induction l as [|a l IH]; intros H; [reflexivity|]. cbn [List.filter].
  rewrite (proj2 (Z.eqb_neq _ _) (H a (or_introl eq_refl))), andb_false_r.
  apply IH. intros x Hx. apply H. now right.
Qed.

(** Under the primary key, the statement of [Get] selects a live
    record and nothing else. *)
Lemma get_rows_unique now db t :
  primary_key db -> In t (sql.snippets db) -> now < sql.col_expires t ->
  get_rows now (sql.col_id t) db = [t].
Proof.
  unfold primary_key, get_rows. generalize (sql.snippets db) as l.
  induction l as [|a l IH]; intros Hnd Hin Hlive; [destruct Hin|].
  cbn [List.map] in Hnd. apply NoDup_cons in Hnd as [Hnotin Hnd].
  cbn [List.filter]. destruct Hin as [->|Hin].
  - rewrite (proj2 (Z.ltb_lt _ _) Hlive), Z.eqb_refl. cbn [andb]. f_equal.
    apply no_key_no_rows. intros x Hx E. apply Hnotin. rewrite <- E.
    apply list_elem_of_In, in_map, Hx.
  - assert (sql.col_id a <> sql.col_id t) as Hne.
    { intros E. apply Hnotin. rewrite E. apply list_elem_of_In, in_map, Hin. }
    rewrite (proj2 (Z.eqb_neq _ _) Hne), andb_false_r. now apply IH.
Qed.

Lemma Get_one_row id now f db t :
  healthy f -> get_rows now id db = [t] ->
  fst (Get the_model id now f db) = (Some (snippet_of t), None).
Proof.
  intros (_ & _ & Hq & Hn & Hs & Hc) Hrows.
  rewrite (models_spec.Get_unfold _ _ _ _ Hq). unfold cursor_records.
  rewrite Hn, Hrows. cbn [fst Get_outcome]. now rewrite Hs, Hc.
Qed.

(** Every live snippet can be retrieved, whole: in a table that
    respects the primary key and on a healthy connection, [Get] of the
    key of a stored record whose expiry is after the time of the call
    returns that record, column by column. *)
Theorem Get_finds_live now f db t :
  primary_key db -> healthy f ->
  In t (sql.snippets db) -> now < sql.col_expires t ->
  fst (Get the_model (sql.col_id t) now f db) =
    (Some {| ID := sql.col_id t; title := sql.col_title t; content := sql.col_content t;
             created := sql.col_created t; expires := sql.col_expires t |}, None).
Proof.
  intros Hpk Hf Hin Hlive.
  apply (Get_one_row _ _ _ _ t Hf). now apply get_rows_unique.
Qed.

(** A snippet is retrievable exactly until its expiry.  After an
    [Insert] that returned the identifier [id], a [Get] of [id] on a
    healthy connection returns the snippet as inserted, with the
    timestamps the engine computed, as long as the time of the call is
    before the insert time plus the given number of days; from that
    instant on it answers [ErrNoRecord].  A snippet inserted with zero
    or a negative number of days is therefore never retrievable. *)
Theorem Get_after_Insert title0 content0 days now f db id db' now' g :
  Insert the_model title0 content0 days now f db = ((id, None), db') ->
  healthy g ->
  (now' < now + days * sql.seconds_per_day ->
     fst (Get the_model id now' g db') =
       (Some (mkSnippet id title0 content0 now (now + days * sql.seconds_per_day)), None)) /\
  (now + days * sql.seconds_per_day <= now' ->
     fst (Get the_model id now' g db') = (None, Some (Sentinel ErrNoRecord))) /\
  (days <= 0 -> now <= now' ->
     fst (Get the_model id now' g db') = (None, Some (Sentinel ErrNoRecord))).
Proof.
  intros Hins Hg.
  apply models_spec.Insert_success in Hins as (_ & _ & Hfresh & Hrows & _).
  set (t := sql.mkTuple id title0 content0 now (sql.DATE_ADD_DAY now days)) in *.
  assert (now + days * sql.seconds_per_day <= now' ->
          fst (Get the_model id now' g db') = (None, Some (Sentinel ErrNoRecord))) as Hlate.
  { intros Hexp. destruct Hg as (_ & _ & Hq & Hn & _ & Hc).
    apply (models_spec.Get_not_live id now' g db' Hq Hn Hc). right. split.
    - exists t. split; [|reflexivity]. rewrite Hrows. apply in_or_app. right. now left.
    - intros t' [Hin Hid]. rewrite Hrows in Hin. apply in_app_or in Hin as [Hin|[<-|[]]].
      + now destruct (Hfresh t' Hin).
      + exact Hexp. }
  split; [|split; [exact Hlate|]].
  - intros Hlive. apply (Get_one_row _ _ _ _ t Hg).
    apply (models_spec.get_rows_after_insert now' db db' t Hrows Hfresh Hlive).
  - intros Hd Hnow. apply Hlate. unfold sql.seconds_per_day. lia.
Qed.

(** ** [Latest] *)

Lemma sorted_rows db : StronglySorted sql.id_desc (merge_sort sql.id_desc (sql.snippets db)).
Proof. apply StronglySorted_merge_sort; apply _. Qed.

(** The ten most recent.  A successful [Latest] returns min(10, n)
    snippets of a table of n records; each of them is the scan of a
    stored record; and a stored record that is left out has a key no
    greater than the identifier of any snippet returned.  On an empty
    table the result is the empty slice, not nil. *)
Theorem Latest_top_ten now f db l :
  fst (Latest the_model now f db) = (Some l, None) ->
  length l = Nat.min 10 (length (sql.snippets db)) /\
  (forall s, In s l -> exists t, In t (sql.snippets db) /\ s = snippet_of t) /\
  (forall t, In t (sql.snippets db) ->
     In (snippet_of t) l \/ forall s, In s l -> sql.col_id t <= ID s) /\
  (sql.snippets db = [] -> l = []).
Proof.
  intros H. apply models_spec.Latest_success in H as (_ & _ & _ & -> & _).
  unfold latest_rows.
  pose proof (merge_sort_Permutation sql.id_desc (sql.snippets db)) as Hperm.
  set (sorted := merge_sort sql.id_desc (sql.snippets db)) in *.
  split; [|split; [|split]].
  - rewrite length_map, length_take. now rewrite (Permutation_length Hperm).
  - intros s Hs. apply in_map_iff in Hs as (t & <- & Ht). exists t. split; [|reflexivity].
    apply list_elem_of_In. rewrite <- Hperm.
    apply list_elem_of_In, elem_of_take in Ht as (i & Hi & _).
    apply list_elem_of_lookup. eauto.
  - intros t Ht.
    assert (t ∈ sorted) as Hts by (rewrite Hperm; now apply list_elem_of_In).
    rewrite <- (take_drop 10 sorted) in Hts. apply elem_of_app in Hts as [Hin|Hout].
    + left. apply in_map. now apply list_elem_of_In.
    + right. intros s Hs. apply in_map_iff in Hs as (a & <- & Ha).
      pose proof (sorted_rows db) as Hsorted. fold sorted in Hsorted.
      rewrite <- (take_drop 10 sorted) in Hsorted.
      apply (StronglySorted_app_1_elem_of sql.id_desc _ _ a t Hsorted);
        [now apply list_elem_of_In | exact Hout].
  - intros Hnil. subst sorted. now rewrite Hnil.
Qed.

Lemma delivered_records f db : delivered f db = cursor_records f (latest_rows db).
Proof. unfold delivered, cursor_records. now destruct (sql.next_err f) as [[n m]|]. Qed.

(** A record that cannot be scanned fails the whole listing.  When the
    first record the cursor delivers that [Scan] cannot convert comes
    after some that it could, [Latest] returns nil and the error of
    that conversion: the snippets already mapped are dropped, the
    records after it are left unread, and the cursor is not asked for
    its own error. *)
Theorem Latest_scan_failure now f db pre t post msg :
  sql.query_err f = None ->
  delivered f db = (pre ++ t :: post)%list ->
  (forall x, In x pre -> sql.scan_err f x = None) ->
  sql.scan_err f t = Some msg ->
  fst (Latest the_model now f db) = (None, Some (DriverError msg)) /\
  unread (Latest_cursor the_model now f db) = post.
Proof.
  intros Hq Hd Hpre Ht. rewrite models_spec.Latest_of_cursor.
  rewrite delivered_records in Hd.
  rewrite (models_spec.Latest_cursor_halt _ _ _ _ _ _ _ Hq Hd Hpre Ht). now split.
Qed.

(** ** The theorems at concrete inputs *)

Lemma accepts_three_db : accepts three_db.
Proof. apply accepts_checks. split; vm_compute; reflexivity. Qed.

Lemma NewSnippetModel_result_witness :
  sql.prepare_err no_order_by latest_query = Some "syntax error" /\
  fst (NewSnippetModel no_order_by) = None.
Proof.
  split; [reflexivity|].
  destruct (NewSnippetModel no_order_by) as [m e] eqn:E. cbn [fst].
  apply (proj1 (proj2 (NewSnippetModel_result no_order_by)) m (DriverError "syntax error")).
  rewrite E. vm_compute in E. injection E as <- <-. reflexivity.
Defined.

Lemma Insert_stores_record_witness :
  accepts three_db /\
  Insert the_model "d" "dd" 2 300 sql.no_faults three_db
    = ((4, None), after_insert three_db "d" "dd" 2 300).
Proof.
  split; [exact accepts_three_db|].
  apply (proj1 (Insert_stores_record "d" "dd" 2 300 sql.no_faults three_db)
           eq_refl eq_refl accepts_three_db).
Defined.

Lemma Insert_failure_effects_witness :
  sql.last_insert_id_err lost_id = Some "LastInsertId is not supported" /\
  Insert the_model "d" "dd" 2 300 lost_id three_db
    = ((0, Some (DriverError "LastInsertId is not supported")),
       after_insert three_db "d" "dd" 2 300).
Proof.
  split; [reflexivity|].
  apply (proj2 (Insert_failure_effects "d" "dd" 2 300 lost_id three_db)
           "LastInsertId is not supported" eq_refl accepts_three_db eq_refl).
Defined.

Lemma Insert_preserves_other_Get_witness :
  2 <> sql.auto_increment three_db /\
  fst (Get the_model 2 300 sql.no_faults (insert_at "d" "dd" 2 300 three_db))
    = fst (Get the_model 2 300 sql.no_faults three_db).
Proof.
  assert (2 <> sql.auto_increment three_db) as Hne by (vm_compute; discriminate).
  split; [exact Hne|].
  apply (Insert_preserves_other_Get "d" "dd" 2 300 sql.no_faults three_db
           (4, None) (insert_at "d" "dd" 2 300 three_db) 2 300 sql.no_faults);
    [vm_compute; reflexivity | exact Hne].
Defined.

Lemma primary_key_three_db : primary_key three_db.
Proof. unfold primary_key. apply (bool_decide_unpack _). vm_compute. exact I. Qed.

Lemma Get_finds_live_witness :
  In (sql.mkTuple 3 "c" "cc" 200 2592200) (sql.snippets three_db) /\
  fst (Get the_model 3 1000 sql.no_faults three_db)
    = (Some (mkSnippet 3 "c" "cc" 200 2592200), None).
Proof.
  assert (In (sql.mkTuple 3 "c" "cc" 200 2592200) (sql.snippets three_db)) as Hin
    by (vm_compute; auto).
  split; [exact Hin|].
  apply (Get_finds_live 1000 sql.no_faults three_db (sql.mkTuple 3 "c" "cc" 200 2592200)
           primary_key_three_db models_spec.healthy_no_faults Hin).
  vm_compute; reflexivity.
Defined.

Lemma Get_after_Insert_witness :
  Insert the_model "e" "ee" 0 300 sql.no_faults three_db
    = ((4, None), insert_at "e" "ee" 0 300 three_db) /\
  fst (Get the_model 4 300 sql.no_faults (insert_at "e" "ee" 0 300 three_db))
    = (None, Some (Sentinel ErrNoRecord)).
Proof.
  assert (Insert the_model "e" "ee" 0 300 sql.no_faults three_db
          = ((4, None), insert_at "e" "ee" 0 300 three_db)) as Hins
    by (vm_compute; reflexivity).
  split; [exact Hins|].
  apply (Get_after_Insert "e" "ee" 0 300 sql.no_faults three_db 4 _ 300 sql.no_faults
           Hins models_spec.healthy_no_faults); lia.
Defined.

Lemma Latest_top_ten_witness :
  fst (Latest the_model 1000 sql.no_faults three_db)
    = (Some [mkSnippet 3 "c" "cc" 200 2592200; mkSnippet 2 "b" "bb" 100 86500;
             mkSnippet 1 "a" "aa" 0 604800], None) /\
  length [mkSnippet 3 "c" "cc" 200 2592200; mkSnippet 2 "b" "bb" 100 86500;
          mkSnippet 1 "a" "aa" 0 604800] = Nat.min 10 (length (sql.snippets three_db)).
Proof.
  assert (fst (Latest the_model 1000 sql.no_faults three_db)
    = (Some [mkSnippet 3 "c" "cc" 200 2592200; mkSnippet 2 "b" "bb" 100 86500;
             mkSnippet 1 "a" "aa" 0 604800], None)) as HL by (vm_compute; reflexivity).
  split; [exact HL|].
  apply (Latest_top_ten 1000 sql.no_faults three_db _ HL).
Defined.

Lemma Latest_scan_failure_witness :
  sql.scan_err bad_scan (sql.mkTuple 2 "b" "bb" 100 86500) = Some "unsupported Scan" /\
  fst (Latest the_model 1000 bad_scan three_db) = (None, Some (DriverError "unsupported Scan")) /\
  unread (Latest_cursor the_model 1000 bad_scan three_db) = [sql.mkTuple 1 "a" "aa" 0 604800].
Proof.
  split; [reflexivity|].
  apply (Latest_scan_failure 1000 bad_scan three_db
           [sql.mkTuple 3 "c" "cc" 200 2592200] (sql.mkTuple 2 "b" "bb" 100 86500)
           [sql.mkTuple 1 "a" "aa" 0 604800] "unsupported Scan" eq_refl).
  - vm_compute; reflexivity.
  - intros x [<-|[]]. reflexivity.
  - reflexivity.
Defined.

End models_more.

(** * Identifiers in text: [Itoa] and [Atoi] *)

Module strconv_more.
Import golang.
Import strconv.

Lemma pow10_pos n : 1 <= 10 ^ Z.of_nat n.
Proof.
  induction n as [|n IH]; [cbn; lia|]. rewrite Nat2Z.inj_succ, Z.pow_succ_r by lia. lia.
Qed.

(** The loop reads a numeral that fits [uint64] to its end. *)
Lemma ParseUint_loop_in_range s v :
  Digits s v -> forall acc, 0 <= acc ->
  acc * 10 ^ Z.of_nat (String.length s) + v <= maxUint64 ->
  ParseUint_loop s acc = inl (acc * 10 ^ Z.of_nat (String.length s) + v).
Proof.
  change maxUint64 with 18446744073709551615.
  induction 1 as [c d Hd|c d s v Hd Hs IH]; intros acc Hacc Hmax; cbn [ParseUint_loop];
    rewrite Hd; change (maxUint64 / 10 + 1) with 1844674407370955162;
    change maxUint64 with 18446744073709551615; pose proof (strconv_spec.digit_range _ _ Hd) as Hr.
  - cbn [String.length] in *. change (10 ^ Z.of_nat 1) with 10 in *.
    rewrite (proj2 (Z.leb_gt _ _)) by lia. cbv zeta.
    rewrite (proj2 (Z.ltb_ge _ _)) by lia. reflexivity.
  - pose proof (pow10_pos (String.length s)) as Hp.
    pose proof (strconv_spec.Digits_nonneg _ _ Hs) as Hv.
    cbn [String.length] in Hmax |- *. rewrite Nat2Z.inj_succ, Z.pow_succ_r in Hmax |- * by lia.
    assert (acc * 10 + d <= (acc * 10 + d) * 10 ^ Z.of_nat (String.length s)) by nia.
    rewrite (proj2 (Z.leb_gt _ _)) by nia. cbv zeta.
    rewrite (proj2 (Z.ltb_ge _ _)) by nia.
    rewrite IH by nia. apply f_equal. ring.
Qed.

Lemma ParseUint_in_range s v :
  Digits s v -> v <= maxUint64 -> ParseUint s = (v, None).
Proof.
  intros Hv Hmax. unfold ParseUint. pose proof (strconv_spec.Digits_nonempty _ _ Hv).
  destruct s as [|c s]; [congruence|].
  rewrite (ParseUint_loop_in_range _ _ Hv 0) by lia. reflexivity.
Qed.

(** [Atoi] accepts every numeral whose value is an [int]. *)
Lemma Atoi_complete s v :
  Numeral s v -> minInt64 <= v <= maxInt64 -> Atoi s = (v, None).
Proof.
  intros HN Hr. unfold Atoi.
  assert (ParseInt s = (v, None)) as ->;
    [|cbn [fmap option_fmap option_map]; now rewrite (golang_spec.int_id _ Hr)].
  unfold minInt64, maxInt64 in Hr. unfold ParseInt.
  change (2 ^ (intSize - 1)) with 9223372036854775808.
  destruct HN as [s v Hv|s v Hv|s v Hv]; pose proof (strconv_spec.Digits_nonneg _ _ Hv) as Hnn.
  - pose proof (strconv_spec.Digits_nonempty _ _ Hv). destruct s as [|c rest]; [congruence|].
    rewrite (strconv_spec.Digits_no_sign _ _ _ Hv).
    destruct (strconv_spec.Digits_head _ _ _ Hv) as [d Hd].
    apply strconv_spec.digit_not_sign in Hd as [_ ->].
    rewrite (ParseUint_in_range _ _ Hv) by (change maxUint64 with 18446744073709551615; lia).
    cbv zeta. cbn [negb andb]. now rewrite (proj2 (Z.leb_gt _ _)) by lia.
  - change (is_sign "+") with true. change (is_minus "+") with false. cbv iota zeta.
    rewrite (ParseUint_in_range _ _ Hv) by (change maxUint64 with 18446744073709551615; lia).
    cbn [negb andb]. now rewrite (proj2 (Z.leb_gt _ _)) by lia.
  - change (is_sign "-") with true. change (is_minus "-") with true. cbv iota zeta.
    rewrite (ParseUint_in_range _ _ Hv) by (change maxUint64 with 18446744073709551615; lia).
    cbn [negb andb]. now rewrite (proj2 (Z.ltb_ge _ _)) by lia.
Qed.

(** [Atoi] accepts exactly the decimal numerals that denote an [int]:
    an optional sign, at least one digit, nothing else, and a value
    between -2^63 and 2^63 - 1; it returns that value.  Everything else
    is an error: the empty string, a lone sign, a letter, a blank, an
    underscore, a value out of range. *)
Lemma Atoi_accepts_numerals s n :
  (Atoi s = (n, None) <-> Numeral s n /\ minInt64 <= n <= maxInt64) /\
  ((forall v, Numeral s v -> v < minInt64 \/ maxInt64 < v) ->
   exists x cause, Atoi s = (x, Some (NumError "Atoi" s cause))).
Proof.
  split; [split|].
  - intros H. unfold Atoi in H. destruct (ParseInt s) as [i [cause|]] eqn:HP; [discriminate|].
    apply strconv_spec.ParseInt_ok in HP as [HN Hr]. cbn [fmap option_fmap option_map] in H.
    rewrite (golang_spec.int_id _ Hr) in H. injection H as <-. now split.
  - intros [HN Hr]. now apply Atoi_complete.
  - intros Hno. unfold Atoi. destruct (ParseInt s) as [i [cause|]] eqn:HP.
    + cbn [fmap option_fmap option_map]. eauto.
    + apply strconv_spec.ParseInt_ok in HP as [HN Hr]. apply Hno in HN. lia.
Qed.

(** ** [Itoa] writes numerals *)

(** One more digit in front of a numeral, for the value and for the
    accumulator of the library's reader. *)
Lemma digit_in_front c k s Vl V (Al A : positive -> positive) :
  digit c = Some k -> Digits s Vl ->
  (forall acc, Z.pos (Al acc) = Z.pos acc * 10 ^ Z.of_nat (String.length s) + Vl) ->
  V = k * 10 ^ Z.of_nat (String.length s) + Vl ->
  (forall acc, exists q, A acc = Al q /\ Z.pos q = Z.pos acc * 10 + k) ->
  Digits (String c s) V /\
  forall acc, Z.pos (A acc) = Z.pos acc * 10 ^ Z.of_nat (String.length (String c s)) + V.
Proof.
  intros Hc Hs Hl -> HA. split; [now constructor|].
  intros acc. destruct (HA acc) as (q & -> & Hq). rewrite Hl, Hq.
  cbn [String.length]. rewrite Nat2Z.inj_succ, Z.pow_succ_r by lia. ring.
Qed.

(** The digits of a decimal number of the library, read as a numeral:
    the value is the one the library computes, with or without an
    accumulator in front. *)
Lemma uint_digits d :
  d <> Decimal.Nil ->
  Digits (NilEmpty.string_of_uint d) (Z.of_N (Pos.of_uint d)) /\
  forall acc, Z.pos (Pos.of_uint_acc d acc) =
    Z.pos acc * 10 ^ Z.of_nat (String.length (NilEmpty.string_of_uint d))
    + Z.of_N (Pos.of_uint d).
Proof.
  induction d as [|d IH|d IH|d IH|d IH|d IH|d IH|d IH|d IH|d IH|d IH]; intros Hne;
    [congruence|..].
  all: destruct (Decimal.uint_eq_dec d Decimal.Nil) as [->|Hd];
    [split; [apply Digits_one; reflexivity | intros acc; cbn; lia]|].
  all: destruct (IH Hd) as [IHd IHa]; cbn [NilEmpty.string_of_uint].
  all: match goal with
       | |- Digits (String ?c _) _ /\ _ =>
           let k := eval vm_compute in (digit c) in
           match k with
           | Some ?kv =>
               apply (digit_in_front c kv _ (Z.of_N (Pos.of_uint d)) _
                        (Pos.of_uint_acc d)); [reflexivity | exact IHd | exact IHa | |]
           end
       end.
  all: try (cbn [Pos.of_uint Z.of_N]; rewrite ?IHa; lia).
  all: intros acc; cbn [Pos.of_uint_acc]; eexists; split; [reflexivity | lia].
Qed.

Lemma to_uint_digits p : Digits (NilEmpty.string_of_uint (Pos.to_uint p)) (Z.pos p).
Proof.
  pose proof (uint_digits (Pos.to_uint p) (DecimalPos.Unsigned.to_uint_nonnil p)) as [H _].
  now rewrite DecimalPos.Unsigned.of_to in H.
Qed.

Lemma string_of_to_uint p :
  NilZero.string_of_uint (Pos.to_uint p) = NilEmpty.string_of_uint (Pos.to_uint p).
Proof.
  pose proof (DecimalPos.Unsigned.to_uint_nonnil p). unfold NilZero.string_of_uint.
  now destruct (Pos.to_uint p).
Qed.

(** What [Itoa] writes denotes the number. *)
Lemma Itoa_Numeral n : Numeral (Itoa n) n.
Proof.
  destruct n as [|p|p]; unfold Itoa;
    cbn [Z.to_int NilZero.string_of_int]; rewrite ?string_of_to_uint.
  - apply Numeral_unsigned, Digits_one. reflexivity.
  - apply Numeral_unsigned, to_uint_digits.
  - apply (Numeral_minus _ (Z.pos p)), to_uint_digits.
Qed.

(** Round trip of the identifier through text: what [Itoa] (the verb
    [%d] of the redirect) writes for an [int], [Atoi] reads back as the
    same number, without error; and [Itoa] writes no two numbers
    alike. *)
Theorem Atoi_Itoa n :
  minInt64 <= n <= maxInt64 ->
  Atoi (Itoa n) = (n, None) /\
  forall m, Itoa m = Itoa n -> m = n.
Proof.
  intros Hr. split.
  - apply Atoi_complete; [apply Itoa_Numeral | exact Hr].
  - intros m E. apply (strconv_spec.Numeral_functional (Itoa n) n m (Itoa_Numeral n)).
    rewrite <- E. apply Itoa_Numeral.
Qed.

(** ** The theorems at concrete inputs *)

Lemma Atoi_Itoa_witness :
  minInt64 <= -42 <= maxInt64 /\ Atoi (Itoa (-42)) = (-42, None).
Proof.
  assert (minInt64 <= -42 <= maxInt64) as Hr by (unfold minInt64, maxInt64; lia).
  split; [exact Hr|]. apply (Atoi_Itoa (-42) Hr).
Defined.

End strconv_more.

(** * The handlers: success paths, failures and frames *)

Module web_more.
Import golang.
Import web.
Import spec_more.

Lemma append_assoc (a b c : string) : (a ++ b) ++ c = a ++ b ++ c.
Proof.
  induction a as [|x a IH]; [reflexivity|].
  change ((String x a ++ b) ++ c) with (String x ((a ++ b) ++ c)). now rewrite IH.
Qed.

Section Handlers.
Variable debug_Stack : list log.Frame -> string.
Variable time_String : Z -> string.

(** The log entry [serverError] writes when called from line [line] of
    the handler [fn]. *)
Lemma serverError_from app stack clock w err σ line fn :
  errorLog app = main_errorLog ->
  serverError debug_Stack app (in_handlers line fn :: stack) clock w err σ =
    (http.Error w "Internal Server Error" 500,
     {| db := db σ;
        stderr := stderr σ ++
          [log.mkEntry ("ERROR" ++ tab) (Some clock) (Some ("handlers.go", line))
             (Error err ++ http.nl ++
              debug_Stack (in_helpers 13 "serverError" :: in_handlers line fn :: stack))] |}).
Proof. intros Hl. unfold serverError. now rewrite Hl. Qed.

(** ** [home] *)

(** [home] serves the root path only and never touches the database.
    Any other path gets [notFound] and leaves the server as it was;
    whatever the path and the templates, no statement reaches the
    database; and on the root path with templates that parse and
    execute, the page is written and nothing is logged. *)
Theorem home_only_root app env stack w r σ :
  (http.URL_Path r <> "/" ->
     home debug_Stack app env stack w r σ = (notFound app w, σ)) /\
  db (snd (home debug_Stack app env stack w r σ)) = db σ /\
  (http.URL_Path r = "/" -> parse_err (templates env) = None ->
   execute_err (templates env) = None -> rendered (templates env) <> "" ->
   http.status w = None ->
     snd (home debug_Stack app env stack w r σ) = σ /\
     http.status (fst (home debug_Stack app env stack w r σ)) = Some 200 /\
     http.body (fst (home debug_Stack app env stack w r σ))
       = http.body w ++ rendered (templates env)).
Proof.
  unfold home. split; [|split].
  - intros Hp. now rewrite (proj2 (String.eqb_neq _ _) Hp).
  - destruct (negb _); [reflexivity|].
    destruct (parse_err (templates env)); [reflexivity|].
    now destruct (execute_err (templates env)).
  - intros Hp Hparse Hexec Hr Hs. rewrite Hp, Hparse, Hexec. cbn [String.eqb negb].
    rewrite (proj2 (String.eqb_neq _ _) Hr). cbn [fst snd].
    rewrite (web_spec.Write_fresh _ _ Hs). cbn [http.status http.body]. auto.
Qed.

(** Templates that do not parse: the client gets the generic 500 and
    nothing of the page, the log gets the message of the parser at the
    position of the call in [home]. *)
Theorem home_parse_failure app env stack w r σ msg :
  errorLog app = main_errorLog ->
  http.URL_Path r = "/" -> parse_err (templates env) = Some msg ->
  fst (home debug_Stack app env stack w r σ) = http.Error w "Internal Server Error" 500 /\
  stderr (snd (home debug_Stack app env stack w r σ)) =
    (stderr σ ++
     [log.mkEntry ("ERROR" ++ tab) (Some (clock env)) (Some ("handlers.go", 43))
        (msg ++ http.nl ++
         debug_Stack (in_helpers 13 "serverError" :: in_handlers 43 "home" :: stack))])%list.
Proof.
  intros Hl Hp Hparse. unfold home. rewrite Hp, Hparse. cbn [String.eqb negb].
  rewrite (serverError_from _ _ _ _ _ _ _ _ Hl). now split.
Qed.

(** A template that fails while it executes, after part of the page
    has gone out: the status line is already 200 and stays so; the
    generic error text follows the part of the page in the body; the
    failure is logged at the position of the second call in [home]. *)
Theorem home_execute_failure app env stack w r σ msg :
  errorLog app = main_errorLog ->
  http.URL_Path r = "/" -> parse_err (templates env) = None ->
  execute_err (templates env) = Some msg -> rendered (templates env) <> "" ->
  http.status w = None ->
  http.status (fst (home debug_Stack app env stack w r σ)) = Some 200 /\
  http.body (fst (home debug_Stack app env stack w r σ))
    = http.body w ++ rendered (templates env) ++ "Internal Server Error" ++ http.nl /\
  stderr (snd (home debug_Stack app env stack w r σ)) =
    (stderr σ ++
     [log.mkEntry ("ERROR" ++ tab) (Some (clock env)) (Some ("handlers.go", 51))
        (msg ++ http.nl ++
         debug_Stack (in_helpers 13 "serverError" :: in_handlers 51 "home" :: stack))])%list.
Proof.
  intros Hl Hp Hparse Hexec Hr Hs. unfold home. rewrite Hp, Hparse, Hexec.
  cbn [String.eqb negb]. rewrite (proj2 (String.eqb_neq _ _) Hr).
  rewrite (serverError_from _ _ _ _ _ _ _ _ Hl). cbn [fst snd stderr].
  rewrite (web_spec.Write_fresh _ _ Hs).
  erewrite web_spec.http_Error_written by reflexivity. cbn [http.status http.body].
  split; [reflexivity|]. split; [|reflexivity].
  now rewrite append_assoc.
Qed.

(** ** [snippetView] *)

(** Past the check of the identifier the handler is a case analysis on
    what [Get] returned. *)
Lemma snippetView_valid app env stack w r σ id :
  strconv.Atoi (http.Values_Get (http.URL_Query r) "id") = (id, None) -> 1 <= id ->
  snippetView debug_Stack time_String app env stack w r σ =
    let res := models.Get (snippets app) id (db_now env) (faults env) (db σ) in
    let σ' := set_db (snd res) σ in
    match fst res with
    | (_, Some err) =>
        if errors_Is err models.ErrNoRecord then (notFound app w, σ')
        else serverError debug_Stack app (in_handlers 71 "snippetView" :: stack)
                         (clock env) w err σ'
    | (snippet, None) => (http.Write (Sprintf_plus_v time_String snippet) w, σ')
    end.
Proof.
  intros HA Hpos. unfold snippetView. rewrite HA.
  rewrite bool_decide_eq_false_2 by (intros [x Hx]; discriminate). cbn [orb].
  rewrite (proj2 (Z.ltb_ge _ _) Hpos).
  now destruct (models.Get _ id _ _ _) as [[s [e|]] d].
Qed.

(** A live snippet is shown.  For a well-formed positive identifier
    under which a live record is stored, on a healthy connection and a
    table that respects the primary key, the handler answers 200 and
    writes the five fields of the record in the layout of [%+v]; it
    logs nothing and leaves the table alone. *)
Theorem snippetView_found app env stack w r σ t :
  snippets app = models.the_model ->
  strconv.Atoi (http.Values_Get (http.URL_Query r) "id") = (sql.col_id t, None) ->
  1 <= sql.col_id t ->
  spec.primary_key (db σ) -> spec.healthy (faults env) ->
  In t (sql.snippets (db σ)) -> db_now env < sql.col_expires t ->
  http.status w = None ->
  http.status (fst (snippetView debug_Stack time_String app env stack w r σ)) = Some 200 /\
  http.body (fst (snippetView debug_Stack time_String app env stack w r σ)) =
    http.body w ++
    "&{ID:" ++ strconv.Itoa (sql.col_id t) ++ " title:" ++ sql.col_title t ++
    " content:" ++ sql.col_content t ++
    " created:" ++ time_String (sql.col_created t) ++
    " expires:" ++ time_String (sql.col_expires t) ++ "}" /\
  stderr (snd (snippetView debug_Stack time_String app env stack w r σ)) = stderr σ /\
  sql.snippets (db (snd (snippetView debug_Stack time_String app env stack w r σ)))
    = sql.snippets (db σ).
Proof.
  intros Hm HA Hpos Hpk Hf Hin Hlive Hs.
  rewrite (snippetView_valid _ _ _ _ _ _ _ HA Hpos), Hm. cbv zeta.
  rewrite (models_more.Get_one_row _ _ _ _ t Hf (models_more.get_rows_unique _ _ _ Hpk Hin Hlive)).
  rewrite models_more.Get_db. cbn [fst snd set_db stderr db sql.submit sql.snippets].
  rewrite (web_spec.Write_fresh _ _ Hs). cbn [http.status http.body].
  repeat split.
Qed.

(** A storage failure behind the view handler.  Whenever [Get] fails
    with an error other than [ErrNoRecord], the client gets the generic
    500 and nothing of the error, the error log gets one entry with
    the text of the error and the stack, at the position of the call in
    [snippetView], and the table is left alone.  A driver that refuses
    the query is such a failure. *)
Theorem snippetView_storage_error app env stack w r σ id s e :
  errorLog app = main_errorLog ->
  strconv.Atoi (http.Values_Get (http.URL_Query r) "id") = (id, None) -> 1 <= id ->
  fst (models.Get (snippets app) id (db_now env) (faults env) (db σ)) = (s, Some e) ->
  errors_Is e models.ErrNoRecord = false ->
  fst (snippetView debug_Stack time_String app env stack w r σ)
    = http.Error w "Internal Server Error" 500 /\
  stderr (snd (snippetView debug_Stack time_String app env stack w r σ)) =
    (stderr σ ++
     [log.mkEntry ("ERROR" ++ tab) (Some (clock env)) (Some ("handlers.go", 71))
        (Error e ++ http.nl ++
         debug_Stack (in_helpers 13 "serverError" :: in_handlers 71 "snippetView" :: stack))])%list /\
  sql.snippets (db (snd (snippetView debug_Stack time_String app env stack w r σ)))
    = sql.snippets (db σ) /\
  (forall msg, snippets app = models.the_model ->
     sql.query_err (faults env) = Some msg -> e = DriverError msg).
Proof.
  intros Hl HA Hpos HG He.
  rewrite (snippetView_valid _ _ _ _ _ _ _ HA Hpos). cbv zeta. rewrite HG, He.
  rewrite (serverError_from _ _ _ _ _ _ _ _ Hl). cbn [fst snd stderr db set_db].
  rewrite models_more.Get_db. repeat split.
  intros msg Hm Hq. rewrite Hm in HG.
  rewrite (models_spec.Get_query_fault _ _ _ _ _ Hq) in HG. congruence.
Qed.

(** The view handler never writes to the table, and it logs only when
    it answers with the generic 500: for every request, environment
    and state, the table and the counter are as before, and either the
    error log is as before or the response is the generic 500. *)
Theorem snippetView_never_writes app env stack w r σ :
  sql.snippets (db (snd (snippetView debug_Stack time_String app env stack w r σ)))
    = sql.snippets (db σ) /\
  sql.auto_increment (db (snd (snippetView debug_Stack time_String app env stack w r σ)))
    = sql.auto_increment (db σ) /\
  (stderr (snd (snippetView debug_Stack time_String app env stack w r σ)) = stderr σ \/
   fst (snippetView debug_Stack time_String app env stack w r σ)
     = http.Error w "Internal Server Error" 500).
Proof.
  destruct (strconv.Atoi (http.Values_Get (http.URL_Query r) "id")) as [id err] eqn:HA.
  destruct (bool_decide (is_Some err) || (id <? 1)) eqn:Hbad.
  - unfold snippetView. rewrite HA, Hbad. cbn [fst snd]. auto.
  - apply orb_false_iff in Hbad as [Herr Hpos]. apply Z.ltb_ge in Hpos.
    destruct err as [err|]; [rewrite bool_decide_eq_true_2 in Herr by eauto; discriminate|].
    rewrite (snippetView_valid _ _ _ _ _ _ _ HA Hpos). cbv zeta.
    destruct (fst (models.Get _ id _ _ _)) as [s [e|]];
      [destruct (errors_Is e models.ErrNoRecord)|];
      cbn [fst snd serverError db stderr set_db]; rewrite models_more.Get_db;
      cbn [sql.submit sql.snippets sql.auto_increment]; auto.
Qed.

(** ** [snippetCreate] *)

(** Under POST the handler is a case analysis on what [Insert]
    returned for the placeholder snippet. *)
Lemma snippetCreate_post app env stack w r σ :
  http.Method r = http.MethodPost ->
  snippetCreate debug_Stack app env stack w r σ =
    let res := models.Insert (snippets app) snail_title snail_content 7
                             (db_now env) (faults env) (db σ) in
    let σ' := set_db (snd res) σ in
    match fst res with
    | (_, Some err) =>
        serverError debug_Stack app (in_handlers 101 "snippetCreate" :: stack)
                    (clock env) w err σ'
    | (id, None) =>
        (http.Redirect w r ("/snippet/view?id=" ++ strconv.Itoa id) http.StatusSeeOther, σ')
    end.
Proof.
  intros Hm. unfold snippetCreate. rewrite Hm. cbn [String.eqb Ascii.eqb Bool.eqb negb].
  fold snail_title. fold snail_content.
  now destruct (models.Insert _ _ _ _ _ _ _) as [[id [e|]] d].
Qed.

Lemma Redirect_post w r url code :
  200 <= code <= 999 ->
  http.Method r = http.MethodPost -> http.status w = None ->
  http.status (http.Redirect w r url code) = Some code /\
  http.body (http.Redirect w r url code) = http.body w /\
  http.Header (http.Redirect w r url code) = <["Location" := [url]]> (http.Header w).
Proof.
  intros Hc Hm Hs. unfold http.Redirect. rewrite Hm.
  cbn [String.eqb Ascii.eqb Bool.eqb orb andb]. rewrite !andb_false_r.
  destruct (web_spec.WriteHeader_final code (http.Header_Set "Location" url w) Hc Hs)
    as [-> ->].
  repeat split.
Qed.

(** A successful create.  A POST on a healthy connection to an engine
    that accepts the key is answered with 303, a [Location] header
    that names the view of the new identifier, and no body; the table
    has one more record, the placeholder snippet, created at the time
    of the engine and expiring seven days later; nothing is logged. *)
Theorem snippetCreate_created app env stack w r σ :
  snippets app = models.the_model ->
  http.Method r = http.MethodPost ->
  sql.exec_err (faults env) = None -> sql.last_insert_id_err (faults env) = None ->
  accepts (db σ) -> http.status w = None ->
  http.status (fst (snippetCreate debug_Stack app env stack w r σ)) = Some 303 /\
  http.Header (fst (snippetCreate debug_Stack app env stack w r σ)) !! "Location"
    = Some ["/snippet/view?id=" ++ strconv.Itoa (sql.auto_increment (db σ))] /\
  http.body (fst (snippetCreate debug_Stack app env stack w r σ)) = http.body w /\
  db (snd (snippetCreate debug_Stack app env stack w r σ))
    = after_insert (db σ) snail_title snail_content 7 (db_now env) /\
  stderr (snd (snippetCreate debug_Stack app env stack w r σ)) = stderr σ.
Proof.
  intros Hmod Hm He Hl Hacc Hs.
  rewrite (snippetCreate_post _ _ _ _ _ _ Hm), Hmod. cbv zeta.
  rewrite (models_more.Insert_accepted _ _ _ _ _ _ He Hl Hacc). cbn [fst snd set_db db stderr].
  destruct (Redirect_post w r
              ("/snippet/view?id=" ++ strconv.Itoa (sql.auto_increment (db σ)))
              http.StatusSeeOther ltac:(vm_compute; split; discriminate) Hm Hs) as (H1 & H2 & H3).
  repeat split; try assumption. rewrite H3. apply lookup_insert_eq.
Qed.

(** A failed create.  Whenever [Insert] returns an error under POST,
    the client gets the generic 500 and no [Location] header is set;
    the error log gets one entry with the text of the error, at the
    position of the call in [snippetCreate]; and the database is the
    one [Insert] left, so a record stored before the identifier was
    lost stays stored. *)
Theorem snippetCreate_failure app env stack w r σ id e :
  errorLog app = main_errorLog ->
  http.Method r = http.MethodPost ->
  fst (models.Insert (snippets app) snail_title snail_content 7
                     (db_now env) (faults env) (db σ)) = (id, Some e) ->
  fst (snippetCreate debug_Stack app env stack w r σ)
    = http.Error w "Internal Server Error" 500 /\
  http.Header (fst (snippetCreate debug_Stack app env stack w r σ)) !! "Location"
    = http.Header w !! "Location" /\
  stderr (snd (snippetCreate debug_Stack app env stack w r σ)) =
    (stderr σ ++
     [log.mkEntry ("ERROR" ++ tab) (Some (clock env)) (Some ("handlers.go", 101))
        (Error e ++ http.nl ++
         debug_Stack (in_helpers 13 "serverError" :: in_handlers 101 "snippetCreate" :: stack))])%list /\
  db (snd (snippetCreate debug_Stack app env stack w r σ))
    = snd (models.Insert (snippets app) snail_title snail_content 7
                         (db_now env) (faults env) (db σ)) /\
  (forall msg, snippets app = models.the_model -> sql.exec_err (faults env) = None ->
     accepts (db σ) -> sql.last_insert_id_err (faults env) = Some msg ->
     e = DriverError msg /\
     db (snd (snippetCreate debug_Stack app env stack w r σ))
       = after_insert (db σ) snail_title snail_content 7 (db_now env)).
Proof.
  intros Hl Hm HI.
  rewrite (snippetCreate_post _ _ _ _ _ _ Hm). cbv zeta. rewrite HI.
  rewrite (serverError_from _ _ _ _ _ _ _ _ Hl). cbn [fst snd stderr db set_db].
  split; [reflexivity|]. split; [|split; [reflexivity|split; [reflexivity|]]].
  - rewrite web_spec.http_Error_Header.
    rewrite !lookup_insert_ne by discriminate. now rewrite lookup_delete_ne by discriminate.
  - intros msg Hmod He Hacc Hlast. rewrite Hmod in *.
    pose proof (models_more.Insert_lost_id snail_title snail_content 7 (db_now env) _ _ msg He Hacc Hlast) as HL.
    rewrite HL in HI |- *. cbn [fst snd] in *. split; [congruence|reflexivity].
Qed.

(** ** Create, then view *)

(** The redirect of a successful create leads to the snippet.  After a
    POST has been answered with the [Location] of the new identifier,
    a request to the view handler whose [id] parameter is the text of
    that identifier, served on a healthy connection less than seven
    days of the engine's clock later, is answered with 200 and the
    placeholder title and content, with the timestamps of the insert. *)
Theorem create_then_view app env stack w r σ env' stack' w' r' :
  snippets app = models.the_model ->
  http.Method r = http.MethodPost ->
  sql.exec_err (faults env) = None -> sql.last_insert_id_err (faults env) = None ->
  accepts (db σ) ->
  http.URL_Query r' = [("id", strconv.Itoa (sql.auto_increment (db σ)))] ->
  spec.healthy (faults env') ->
  db_now env' < db_now env + 7 * sql.seconds_per_day ->
  http.status w' = None ->
  let σ1 := snd (snippetCreate debug_Stack app env stack w r σ) in
  http.status (fst (snippetView debug_Stack time_String app env' stack' w' r' σ1))
    = Some 200 /\
  http.body (fst (snippetView debug_Stack time_String app env' stack' w' r' σ1)) =
    http.body w' ++
    Sprintf_plus_v time_String
      (Some (models.mkSnippet (sql.auto_increment (db σ)) snail_title snail_content
               (db_now env) (db_now env + 7 * sql.seconds_per_day))).
Proof.
  intros Hmod Hm He Hl Hacc Hq Hf Hlive Hs σ1.
  assert (db σ1 = after_insert (db σ) snail_title snail_content 7 (db_now env)) as Hdb.
  { subst σ1. rewrite (snippetCreate_post _ _ _ _ _ _ Hm), Hmod. cbv zeta.
    now rewrite (models_more.Insert_accepted _ _ _ _ _ _ He Hl Hacc). }
  assert (strconv.Atoi (http.Values_Get (http.URL_Query r') "id")
          = (sql.auto_increment (db σ), None)) as HA.
  { rewrite Hq. cbn [http.Values_Get String.eqb Ascii.eqb Bool.eqb].
    apply strconv_more.Atoi_complete; [apply strconv_more.Itoa_Numeral|].
    destruct Hacc as [Hr _]. unfold minInt64, maxInt64 in *. lia. }
  rewrite (snippetView_valid _ _ _ _ _ _ _ HA (proj1 (proj1 Hacc))), Hmod. cbv zeta.
  set (t := inserted (db σ) snail_title snail_content 7 (db_now env)).
  assert (spec.get_rows (db_now env') (sql.col_id t) (db σ1) = [t]) as Hrows.
  { apply (models_spec.get_rows_after_insert (db_now env') (db σ) (db σ1) t).
    - now rewrite Hdb.
    - apply Hacc.
    - exact Hlive. }
  pose proof (models_more.Get_one_row _ _ _ _ t Hf Hrows) as HG.
  change (sql.col_id t) with (sql.auto_increment (db σ)) in HG. rewrite HG.
  rewrite (web_spec.Write_fresh _ _ Hs). cbn [http.status http.body]. now split.
Qed.

(** When the view handler consults the repository.  It does so exactly
    for an [id] parameter that is a decimal numeral of a value between
    1 and 2^63 - 1, and then submits the one statement of [Get] with
    that value; for a parameter that denotes no such value (no numeral
    at all, zero, a negative number, a number too large for an [int])
    it answers [notFound] and leaves the server as it was. *)
Theorem snippetView_consults_repository app env stack w r σ :
  let v := http.Values_Get (http.URL_Query r) "id" in
  (forall n, strconv.Numeral v n -> 1 <= n <= maxInt64 ->
     sql.submitted (db (snd (snippetView debug_Stack time_String app env stack w r σ)))
       = (sql.submitted (db σ) ++ [(models.GetStmt (snippets app), [sql.VInt n])])%list) /\
  ((forall n, strconv.Numeral v n -> n < 1 \/ maxInt64 < n) ->
     snippetView debug_Stack time_String app env stack w r σ = (notFound app w, σ)).
Proof.
  intros v. split.
  - intros n HN Hr. apply web_spec.snippetView_queries_repository; [|lia].
    apply strconv_more.Atoi_complete; [exact HN|]. unfold minInt64, maxInt64 in *. lia.
  - intros Hno. unfold snippetView. fold v.
    destruct (strconv.Atoi v) as [id [e|]] eqn:HA.
    + rewrite bool_decide_eq_true_2 by eauto. reflexivity.
    + apply (proj1 (strconv_more.Atoi_accepts_numerals v id)) in HA as [HN Hr].
      destruct (Hno id HN) as [Hlow|Hhigh]; [|lia].
      rewrite (proj2 (Z.ltb_lt _ _) Hlow). now rewrite orb_true_r.
Qed.

(** ** The helpers *)

Lemma WriteHeader_fixes code w :
  http.invalid_code code = false -> http.informational code = false ->
  http.status w = None ->
  http.WriteHeader_panics code w = false /\
  http.WriteHeader code w =
    http.mkResponseWriter (http.Header w) (Some code) (http.body w) (http.interim w)
      (http.panicked w).
Proof.
  intros Hi Hf Hs. unfold http.WriteHeader_panics, http.WriteHeader. now rewrite Hs, Hi, Hf.
Qed.

Lemma WriteHeader_interim code w :
  100 <= code <= 199 -> code <> 101 -> http.status w = None ->
  http.WriteHeader_panics code w = false /\
  http.WriteHeader code w =
    http.mkResponseWriter (http.Header w) None (http.body w) (http.interim w ++ [code])
      (http.panicked w).
Proof.
  intros Hc Hn Hs. unfold http.WriteHeader_panics, http.WriteHeader. rewrite Hs.
  assert (http.invalid_code code = false) as ->.
  { unfold http.invalid_code. apply orb_false_iff. split; apply Z.ltb_ge; lia. }
  assert (http.informational code = true) as ->.
  { unfold http.informational.
    rewrite (proj2 (Z.leb_le _ _) (proj1 Hc)), (proj2 (Z.leb_le _ _) (proj2 Hc)).
    now rewrite (proj2 (Z.eqb_neq _ _) Hn). }
  now split.
Qed.

Lemma WriteHeader_invalid code w :
  code < 100 \/ 999 < code -> http.status w = None ->
  http.WriteHeader_panics code w = true /\
  http.WriteHeader code w =
    http.mkResponseWriter (http.Header w) None (http.body w) (http.interim w)
      (Some ("invalid WriteHeader code " ++ strconv.Itoa code)).
Proof.
  intros Hc Hs. unfold http.WriteHeader_panics, http.WriteHeader. rewrite Hs.
  assert (http.invalid_code code = true) as ->; [|now split].
  unfold http.invalid_code. apply orb_true_iff.
  destruct Hc; [left|right]; apply Z.ltb_lt; lia.
Qed.

Lemma body_allowed code :
  200 <= code -> code <> 204 -> code <> 304 -> http.bodyAllowedForStatus code = true.
Proof.
  intros Hc H1 H2. unfold http.bodyAllowedForStatus, http.StatusNoContent, http.StatusNotModified.
  rewrite (proj2 (Z.leb_gt code 199)) by lia.
  rewrite (proj2 (Z.eqb_neq _ _) H1), (proj2 (Z.eqb_neq _ _) H2).
  now rewrite andb_false_r.
Qed.

(** [http.Error] with a status that allows no body: the status is
    fixed and the text is dropped. *)
Lemma http_Error_bodiless w msg code :
  http.invalid_code code = false -> http.informational code = false ->
  http.bodyAllowedForStatus code = false -> http.status w = None ->
  http.Error w msg code =
    http.mkResponseWriter
      (<["X-Content-Type-Options" := ["nosniff"]]>
         (<["Content-Type" := ["text/plain; charset=utf-8"]]>
            (delete "Content-Length" (http.Header w))))
      (Some code) (http.body w) (http.interim w) (http.panicked w).
Proof.
  intros Hi Hf Hb Hs. unfold http.Error.
  match goal with |- context [http.WriteHeader_panics code ?w3] =>
    destruct (WriteHeader_fixes code w3 Hi Hf Hs) as [-> ->] end.
  now erewrite web_spec.Fprintln_refused by (try reflexivity; exact Hb).
Qed.

(** [http.Error] with a 1xx code other than 101: the code goes out as
    an interim response, and the text then goes out under 200. *)
Lemma http_Error_interim w msg code :
  100 <= code <= 199 -> code <> 101 -> http.status w = None ->
  http.Error w msg code =
    http.mkResponseWriter
      (<["X-Content-Type-Options" := ["nosniff"]]>
         (<["Content-Type" := ["text/plain; charset=utf-8"]]>
            (delete "Content-Length" (http.Header w))))
      (Some 200) (http.body w ++ msg ++ http.nl) (http.interim w ++ [code])
      (http.panicked w).
Proof.
  intros Hc Hn Hs. unfold http.Error.
  match goal with |- context [http.WriteHeader_panics code ?w3] =>
    destruct (WriteHeader_interim code w3 Hc Hn Hs) as [-> ->] end.
  unfold http.Fprintln. now rewrite web_spec.Write_fresh by reflexivity.
Qed.

(** [http.Error] with a code outside 100..999: [WriteHeader] panics,
    no status and no text is written. *)
Lemma http_Error_invalid w msg code :
  code < 100 \/ 999 < code -> http.status w = None ->
  http.Error w msg code =
    http.mkResponseWriter
      (<["X-Content-Type-Options" := ["nosniff"]]>
         (<["Content-Type" := ["text/plain; charset=utf-8"]]>
            (delete "Content-Length" (http.Header w))))
      None (http.body w) (http.interim w)
      (Some ("invalid WriteHeader code " ++ strconv.Itoa code)).
Proof.
  intros Hc Hs. unfold http.Error.
  match goal with |- context [http.WriteHeader_panics code ?w3] =>
    destruct (WriteHeader_invalid code w3 Hc Hs) as [-> ->] end.
  reflexivity.
Qed.

(** What [clientError] sends on a writer nothing has been written to,
    by the status it is given.  For a status from 200 to 999 that
    allows a body (any but 204 and 304) the status is the given one and
    the body gains the standard text of that status and a line break.
    For 101, 204 and 304 the status is the given one and the text is
    dropped, such a response having no body.  Any other status from 100
    to 199 goes out as an interim response, and the text then goes out
    under the status 200.  For a status below 100 or above 999
    [WriteHeader] panics: no status and no text is written.  In every
    case the content type is plain text, the sniffing of the content is
    turned off, a [Content-Length] set before is dropped, and every
    other header set before, such as [Allow], is kept.  [notFound] is
    [clientError] with 404. *)
Theorem clientError_response app w code :
  http.status w = None ->
  (200 <= code <= 999 -> code <> 204 -> code <> 304 ->
     http.status (clientError app w code) = Some code /\
     http.body (clientError app w code) = http.body w ++ http.StatusText code ++ http.nl /\
     http.interim (clientError app w code) = http.interim w /\
     http.panicked (clientError app w code) = http.panicked w) /\
  (code = 101 \/ code = 204 \/ code = 304 ->
     http.status (clientError app w code) = Some code /\
     http.body (clientError app w code) = http.body w /\
     http.interim (clientError app w code) = http.interim w /\
     http.panicked (clientError app w code) = http.panicked w) /\
  (100 <= code <= 199 -> code <> 101 ->
     http.interim (clientError app w code) = (http.interim w ++ [code])%list /\
     http.status (clientError app w code) = Some 200 /\
     http.body (clientError app w code) = http.body w ++ http.StatusText code ++ http.nl /\
     http.panicked (clientError app w code) = http.panicked w) /\
  (code < 100 \/ 999 < code ->
     http.panicked (clientError app w code)
       = Some ("invalid WriteHeader code " ++ strconv.Itoa code) /\
     http.status (clientError app w code) = None /\
     http.body (clientError app w code) = http.body w /\
     http.interim (clientError app w code) = http.interim w) /\
  http.Header (clientError app w code) !! "Content-Type"
    = Some ["text/plain; charset=utf-8"] /\
  http.Header (clientError app w code) !! "X-Content-Type-Options" = Some ["nosniff"] /\
  http.Header (clientError app w code) !! "Content-Length" = None /\
  (forall k, k <> "Content-Type" -> k <> "X-Content-Type-Options" -> k <> "Content-Length" ->
     http.Header (clientError app w code) !! k = http.Header w !! k) /\
  notFound app w = clientError app w 404.
Proof.
  intros Hs. unfold clientError.
  split; [|split; [|split; [|split]]].
  - intros Hc H1 H2.
    rewrite (web_spec.http_Error_final _ _ _ Hc (body_allowed _ (proj1 Hc) H1 H2) Hs).
    repeat split.
  - intros Hc. rewrite http_Error_bodiless; [repeat split| | | |exact Hs];
      destruct Hc as [->|[->| ->]]; reflexivity.
  - intros Hc Hn. rewrite (http_Error_interim _ _ _ Hc Hn Hs). repeat split.
  - intros Hc. rewrite (http_Error_invalid _ _ _ Hc Hs). repeat split.
  - rewrite web_spec.http_Error_Header. repeat split.
    + rewrite lookup_insert_ne by discriminate. apply lookup_insert_eq.
    + apply lookup_insert_eq.
    + rewrite !lookup_insert_ne by discriminate. apply lookup_delete_eq.
    + intros k Hk1 Hk2 Hk3. rewrite !lookup_insert_ne by congruence.
      now rewrite lookup_delete_ne by congruence.
Qed.

End Handlers.

(** ** The theorems at concrete inputs *)

Lemma home_only_root_witness :
  http.URL_Path (http.mkRequest "GET" "/about" []) <> "/" /\
  home spec.stack_txt main_app (spec.quiet_env 0) [] http.fresh
       (http.mkRequest "GET" "/about" []) spec.three_world
    = (notFound main_app http.fresh, spec.three_world).
Proof.
  assert (http.URL_Path (http.mkRequest "GET" "/about" []) <> "/") as Hp
    by (vm_compute; discriminate).
  split; [exact Hp|].
  apply (proj1 (home_only_root spec.stack_txt main_app (spec.quiet_env 0) [] http.fresh
                  (http.mkRequest "GET" "/about" []) spec.three_world) Hp).
Defined.

Lemma home_parse_failure_witness :
  parse_err (templates (env_templates (mkTemplates (Some "open base.tmpl.html") "" None)))
    = Some "open base.tmpl.html" /\
  fst (home spec.stack_txt main_app
         (env_templates (mkTemplates (Some "open base.tmpl.html") "" None)) [] http.fresh
         (http.mkRequest "GET" "/" []) spec.three_world)
    = http.Error http.fresh "Internal Server Error" 500.
Proof.
  split; [reflexivity|].
  apply (home_parse_failure spec.stack_txt main_app
           (env_templates (mkTemplates (Some "open base.tmpl.html") "" None)) [] http.fresh
           (http.mkRequest "GET" "/" []) spec.three_world "open base.tmpl.html"
           eq_refl eq_refl eq_refl).
Defined.

Lemma home_execute_failure_witness :
  execute_err (templates (env_templates (mkTemplates None "<html>" (Some "no such template"))))
    = Some "no such template" /\
  http.status
    (fst (home spec.stack_txt main_app
            (env_templates (mkTemplates None "<html>" (Some "no such template"))) []
            http.fresh (http.mkRequest "GET" "/" []) spec.three_world)) = Some 200.
Proof.
  split; [reflexivity|].
  apply (home_execute_failure spec.stack_txt main_app
           (env_templates (mkTemplates None "<html>" (Some "no such template"))) []
           http.fresh (http.mkRequest "GET" "/" []) spec.three_world "no such template"
           eq_refl eq_refl eq_refl eq_refl); [vm_compute; discriminate | reflexivity].
Defined.

Lemma snippetView_found_witness :
  In (sql.mkTuple 3 "c" "cc" 200 2592200) (sql.snippets (db spec.three_world)) /\
  http.status
    (fst (snippetView spec.stack_txt spec.time_txt main_app (spec.quiet_env 1000) []
            http.fresh (view_request "3") spec.three_world)) = Some 200.
Proof.
  assert (In (sql.mkTuple 3 "c" "cc" 200 2592200) (sql.snippets (db spec.three_world)))
    as Hin by (vm_compute; auto).
  split; [exact Hin|].
  apply (snippetView_found spec.stack_txt spec.time_txt main_app (spec.quiet_env 1000) []
           http.fresh (view_request "3") spec.three_world
           (sql.mkTuple 3 "c" "cc" 200 2592200) eq_refl).
  - vm_compute; reflexivity.
  - cbn; lia.
  - exact models_more.primary_key_three_db.
  - exact models_spec.healthy_no_faults.
  - exact Hin.
  - vm_compute; reflexivity.
  - reflexivity.
Defined.

Lemma snippetView_storage_error_witness :
  fst (models.Get (snippets main_app) 3 1000 refused_query (db spec.three_world))
    = (None, Some (DriverError "connection refused")) /\
  fst (snippetView spec.stack_txt spec.time_txt main_app (env_with 1000 refused_query) []
         http.fresh (view_request "3") spec.three_world)
    = http.Error http.fresh "Internal Server Error" 500.
Proof.
  assert (fst (models.Get (snippets main_app) 3 1000 refused_query (db spec.three_world))
          = (None, Some (DriverError "connection refused"))) as HG by (vm_compute; reflexivity).
  split; [exact HG|].
  apply (snippetView_storage_error spec.stack_txt spec.time_txt main_app
           (env_with 1000 refused_query) [] http.fresh (view_request "3") spec.three_world
           3 None (DriverError "connection refused") eq_refl);
    [vm_compute; reflexivity | lia | exact HG | reflexivity].
Defined.

Lemma snippetCreate_created_witness :
  accepts (db spec.three_world) /\
  http.status
    (fst (snippetCreate spec.stack_txt main_app (spec.quiet_env 1000) [] http.fresh
            (create_request "POST") spec.three_world)) = Some 303.
Proof.
  split; [exact models_more.accepts_three_db|].
  apply (snippetCreate_created spec.stack_txt main_app (spec.quiet_env 1000) [] http.fresh
           (create_request "POST") spec.three_world eq_refl eq_refl eq_refl eq_refl
           models_more.accepts_three_db eq_refl).
Defined.

Lemma snippetCreate_failure_witness :
  fst (models.Insert (snippets main_app) snail_title snail_content 7 1000
                     spec.exec_refused (db spec.three_world))
    = (0, Some (DriverError "connection refused")) /\
  fst (snippetCreate spec.stack_txt main_app (env_with 1000 spec.exec_refused) []
         http.fresh (create_request "POST") spec.three_world)
    = http.Error http.fresh "Internal Server Error" 500.
Proof.
  assert (fst (models.Insert (snippets main_app) snail_title snail_content 7 1000
                 spec.exec_refused (db spec.three_world))
          = (0, Some (DriverError "connection refused"))) as HI by (vm_compute; reflexivity).
  split; [exact HI|].
  apply (snippetCreate_failure spec.stack_txt main_app (env_with 1000 spec.exec_refused) []
           http.fresh (create_request "POST") spec.three_world 0
           (DriverError "connection refused") eq_refl eq_refl HI).
Defined.

Lemma create_then_view_witness :
  http.URL_Query (view_request "4")
    = [("id", strconv.Itoa (sql.auto_increment (db spec.three_world)))] /\
  http.status
    (fst (snippetView spec.stack_txt spec.time_txt main_app (spec.quiet_env 2000) []
            http.fresh (view_request "4")
            (snd (snippetCreate spec.stack_txt main_app (spec.quiet_env 1000) [] http.fresh
                    (create_request "POST") spec.three_world)))) = Some 200.
Proof.
  assert (http.URL_Query (view_request "4")
          = [("id", strconv.Itoa (sql.auto_increment (db spec.three_world)))]) as Hq
    by (vm_compute; reflexivity).
  split; [exact Hq|].
  apply (create_then_view spec.stack_txt spec.time_txt main_app (spec.quiet_env 1000) []
           http.fresh (create_request "POST") spec.three_world (spec.quiet_env 2000) []
           http.fresh (view_request "4") eq_refl eq_refl eq_refl eq_refl
           models_more.accepts_three_db Hq models_spec.healthy_no_faults).
  - vm_compute; reflexivity.
  - reflexivity.
Defined.

Lemma snippetView_consults_repository_witness :
  strconv.Numeral "3" 3 /\
  sql.submitted
    (db (snd (snippetView spec.stack_txt spec.time_txt main_app (spec.quiet_env 1000) []
                http.fresh (view_request "3") spec.three_world)))
  = (sql.submitted (db spec.three_world) ++ [(models.get_query, [sql.VInt 3])])%list.
Proof.
  assert (strconv.Numeral "3" 3) as HN
    by (apply strconv.Numeral_unsigned, strconv.Digits_one; reflexivity).
  split; [exact HN|].
  apply (proj1 (snippetView_consults_repository spec.stack_txt spec.time_txt main_app
                  (spec.quiet_env 1000) [] http.fresh (view_request "3") spec.three_world)
           3 HN).
  unfold maxInt64. lia.
Defined.

Lemma clientError_response_witness :
  http.status (http.Header_Set "Allow" "POST" http.fresh) = None /\
  http.Header (clientError main_app (http.Header_Set "Allow" "POST" http.fresh) 405) !! "Allow"
    = Some ["POST"] /\
  http.status (clientError main_app (http.Header_Set "Allow" "POST" http.fresh) 103)
    = Some 200 /\
  http.status (clientError main_app (http.Header_Set "Allow" "POST" http.fresh) 0) = None.
Proof.
  split; [reflexivity|].
  split; [|split].
  - destruct (clientError_response main_app (http.Header_Set "Allow" "POST" http.fresh) 405
                eq_refl) as (_ & _ & _ & _ & _ & _ & _ & Hk & _).
    rewrite (Hk "Allow") by discriminate. reflexivity.
  - destruct (clientError_response main_app (http.Header_Set "Allow" "POST" http.fresh) 103
                eq_refl) as (_ & _ & Hi & _).
    apply Hi; [lia | discriminate].
  - destruct (clientError_response main_app (http.Header_Set "Allow" "POST" http.fresh) 0
                eq_refl) as (_ & _ & _ & Hp & _).
    apply Hp. left. lia.
Defined.

End web_more.
